(** * Experiment manager: a shallow embedding of [experiments_manager.py]

    The module under study is one Python class, [Experiment], which
    allocates a directory [<root>/<group>/<id>/logs], optionally makes a
    git commit of the working tree, and offers an append-only text file
    [info.txt].  The class is embedded as state-passing functions over

    - an [Experiment] record holding the instance attributes, and
    - a [World] holding what the class reaches through the standard
      library: the file system, the clock, external processes and the
      logging machinery.

    Python exceptions are values of type [exn]; a method is a function
    from a state to a result and the state it leaves behind, so that the
    mutations made before an exception is raised stay visible. *)

From Stdlib Require Import String Ascii List ZArith Lia DecimalString DecimalNat.
From stdpp Require Import gmap strings list fin_maps.

Open Scope string_scope.

(** ** Exceptions and the state-and-exception monad *)

(** The subclasses of [OSError] that the modelled file-system calls and
    process spawns can raise. *)
Inductive oserror :=
  | FileNotFoundError
  | FileExistsError
  | NotADirectoryError
  | IsADirectoryError
  | PermissionError.

Inductive exn :=
  | AttributeError (attribute : string)
  | TypeError (message : string)
  | OSError (e : oserror)
  | CalledProcessError (returncode : Z) (cmd : list string)
  | OtherError (message : string).

Inductive Result (A : Type) :=
  | Ok (a : A)
  | Err (e : exn).
Arguments Ok {A} a.
Arguments Err {A} e.

Definition is_filesystem_error (e : exn) : bool :=
  match e with OSError _ => true | _ => false end.

(** A computation over a state [S]: it returns a value or raises, and in
    both cases leaves a state. *)
Definition M (S A : Type) : Type := S -> Result A * S.

Definition ret {S A} (a : A) : M S A := fun s => (Ok a, s).
Definition raise {S A} (e : exn) : M S A := fun s => (Err e, s).
Definition bind {S A B} (m : M S A) (k : A -> M S B) : M S B :=
  fun s => match m s with
           | (Ok a, s') => k a s'
           | (Err e, s') => (Err e, s')
           end.
Definition get {S} : M S S := fun s => (Ok s, s).
Definition gets {S A} (f : S -> A) : M S A := fun s => (Ok (f s), s).
Definition modify {S} (f : S -> S) : M S unit := fun s => (Ok tt, f s).

(** [try body except handler]: the handler sees the exception and either
    handles it or lets it through ([None]). *)
Definition try_except {S A} (body : M S A) (handler : exn -> option (M S A))
  : M S A :=
  fun s => match body s with
           | (Ok a, s') => (Ok a, s')
           | (Err e, s') =>
               match handler e with
               | Some h => h s'
               | None => (Err e, s')
               end
           end.

Declare Scope py_scope.
Delimit Scope py_scope with py.
Notation "x <- m ;; k" := (bind m (fun x => k))
  (at level 100, m at next level, right associativity) : py_scope.
Notation "m ;;; k" := (bind m (fun _ => k))
  (at level 100, right associativity) : py_scope.
Open Scope py_scope.

(** ** Strings *)

Definition newline : string := String (ascii_of_nat 10) EmptyString.

(** [str(n)] and the [{n}] of an f-string, for a non-negative integer. *)
Definition str_of_nat (n : nat) : string :=
  NilZero.string_of_uint (Nat.to_uint n).

(** [str.isspace] on one character, for code points below 256. *)
Definition py_isspace (c : ascii) : bool :=
  let n := nat_of_ascii c in
  (((9 <=? n) && (n <=? 13)) || ((28 <=? n) && (n <=? 32))
   || (n =? 133) || (n =? 160))%nat.

Fixpoint lstrip (s : string) : string :=
  match s with
  | EmptyString => EmptyString
  | String c s' => if py_isspace c then lstrip s' else s
  end.

Fixpoint rstrip (s : string) : string :=
  match s with
  | EmptyString => EmptyString
  | String c s' =>
      match rstrip s' with
      | EmptyString => if py_isspace c then EmptyString else String c EmptyString
      | r => String c r
      end
  end.

(** [str.strip()] with no argument. *)
Definition strip (s : string) : string := rstrip (lstrip s).

(** [s.startswith(p)]. *)
Fixpoint startswith (s p : string) : bool :=
  match p, s with
  | EmptyString, _ => true
  | String c p', String d s' => Ascii.eqb d c && startswith s' p'
  | String _ _, EmptyString => false
  end.

(** [str.split(sep)] for a one-character separator. *)
Fixpoint split_on (sep : ascii) (s : string) : list string :=
  match s with
  | EmptyString => [EmptyString]
  | String c s' =>
      if Ascii.eqb c sep then EmptyString :: split_on sep s'
      else match split_on sep s' with
           | [] => [String c EmptyString]
           | w :: ws => String c w :: ws
           end
  end.

(** The lines of a text file whose lines all end in a newline. *)
Definition file_lines (content : string) : list string :=
  match rev (split_on (ascii_of_nat 10) content) with
  | EmptyString :: rls => rev rls
  | _ => split_on (ascii_of_nat 10) content
  end.

(** Whether a character occurs in a string. *)
Fixpoint occurs (c : ascii) (s : string) : bool :=
  match s with
  | EmptyString => false
  | String d s' => Ascii.eqb d c || occurs c s'
  end.

(** ** [pathlib]: pure POSIX paths

    A path is its anchor (absolute or relative) and its components.
    Parsing drops empty and [.] components, as [pathlib] does; [..] is
    kept as a component.  (A path that starts with exactly two slashes,
    which [pathlib] keeps apart from the root, is read as absolute.) *)

Record Path := mkPath { absolute : bool; parts : list string }.

Definition slash : ascii := ascii_of_nat 47.

Definition kept_component (c : string) : bool :=
  negb (String.eqb c "") && negb (String.eqb c ".").

(** [pathlib.Path(s)]. *)
Definition Path_of_string (s : string) : Path :=
  {| absolute := startswith s "/";
     parts := List.filter kept_component (split_on slash s) |}.

(** [p / s]: an absolute right operand replaces the left one. *)
Definition truediv (p : Path) (s : string) : Path :=
  let q := Path_of_string s in
  if absolute q then q
  else {| absolute := absolute p; parts := parts p ++ parts q |}.

Notation "p // s" := (truediv p s) (at level 40, left associativity).

(** [p.name]: the last component, or the empty string. *)
Definition Path_name (p : Path) : string := List.last (parts p) "".

(** ** [datetime] *)

Record datetime := mkDatetime {
  year : N; month : N; day : N;
  hour : N; minute : N; second : N;
  microsecond : N
}.

(** What the constructor of [datetime.datetime] accepts, the length of
    the month left aside. *)
Definition valid_datetime (t : datetime) : Prop :=
  (1 <= month t <= 12 /\ 1 <= day t <= 31 /\
   hour t < 24 /\ minute t < 60 /\ second t < 60 /\
   microsecond t < 1000000)%N.

Definition digit (d : N) : ascii := ascii_of_N (48 + d).

(** A two-digit, zero-padded field ([%m], [%d], [%H], [%M], [%S]). *)
Definition pad2 (n : N) : string :=
  String (digit (n / 10)) (String (digit (n mod 10)) EmptyString).

(** [t.strftime("%Y-%m-%d_%H-%M-%S")].  The year is printed in decimal,
    which is the four digits of [%Y] for the years 1000 to 9999. *)
Definition strftime (t : datetime) : string :=
  str_of_nat (N.to_nat (year t)) +:+ "-" +:+ pad2 (month t) +:+ "-"
  +:+ pad2 (day t) +:+ "_" +:+ pad2 (hour t) +:+ "-" +:+ pad2 (minute t)
  +:+ "-" +:+ pad2 (second t).

(** Days before the first of January of year [y], and before the first
    of month [m], as in [datetime.py]; enough to place two readings of
    the clock on one axis. *)
Definition days_before_year (y : N) : N :=
  (let y' := y - 1 in y' * 365 + y' / 4 - y' / 100 + y' / 400)%N.

Definition is_leap (y : N) : bool :=
  ((y mod 4 =? 0) && (negb (y mod 100 =? 0) || (y mod 400 =? 0)))%N.

Definition days_before_month (y m : N) : N :=
  (nth (N.to_nat m)
       [0; 0; 31; 59; 90; 120; 151; 181; 212; 243; 273; 304; 334] 0
   + (if (2 <? m) && is_leap y then 1 else 0))%N.

Definition toordinal (t : datetime) : N :=
  (days_before_year (year t) + days_before_month (year t) (month t)
   + day t)%N.

(** Microseconds since the start of year 1. *)
Definition total_microseconds (t : datetime) : N :=
  ((((toordinal t * 24 + hour t) * 60 + minute t) * 60 + second t) * 1000000
   + microsecond t)%N.

(** Two readings at least one second apart, in either order. *)
Definition seconds_apart (t1 t2 : datetime) : Prop :=
  (total_microseconds t1 + 1000000 <= total_microseconds t2 \/
   total_microseconds t2 + 1000000 <= total_microseconds t1)%N.

(** ** The file system

    A file system maps the absolute component list of a path to the node
    found there.  The root is always a directory.  Paths are resolved
    component by component without symbolic links, and [..] is an
    ordinary name here. *)

Inductive node :=
  | File (content : string)
  | Dir.

Abbreviation filesystem := (gmap (list string) node).

Definition node_at (fs : filesystem) (p : list string) : option node :=
  match p with
  | [] => Some Dir
  | _ => fs !! p
  end.

Definition is_Dir (n : option node) : bool :=
  match n with Some Dir => true | _ => false end.

Definition is_File (n : option node) : bool :=
  match n with Some (File _) => true | _ => false end.

(** The places a walk from the root to [t] goes through, [t] included. *)
Definition prefixes (t : list string) : list (list string) :=
  map (fun n => firstn n t) (seq 0 (S (length t))).

(** A regular file sits at [t] or higher up. *)
Definition file_above (fs : filesystem) (t : list string) : bool :=
  existsb (fun k => is_File (node_at fs k)) (prefixes t).

(** The name under which [k] is an immediate entry of directory [d]. *)
Fixpoint child_of (d k : list string) : option string :=
  match d, k with
  | [], [c] => Some c
  | x :: d', y :: k' => if decide (x = y) then child_of d' k' else None
  | _, _ => None
  end.

(** The names of the immediate entries of [d]. *)
Definition entries (fs : filesystem) (d : list string) : list string :=
  omap (fun kv => child_of d (fst kv)) (map_to_list fs).

(** ** Logging *)

Inductive level := DEBUG | INFO | WARNING | ERROR | CRITICAL.

Inductive Logger :=
  | RootLogger
  | UserLogger (name : string).

Record Handler := mkHandler {
  handler_file : string;
  handler_level : option level;
  handler_format : option string
}.

(** A call made on a logger: the level, the message and, for
    [Logger.exception], the exception whose traceback goes with it. *)
Record LogRecord := mkLogRecord {
  rec_logger : Logger;
  rec_level : level;
  rec_msg : string;
  rec_exc_info : option exn
}.

(** ** External processes

    A command is its argument vector and the working directory it is
    started in.  What a command does is not decided here: the world
    carries an oracle that, from the commands run so far and the command
    at hand, tells whether the process could be started, and if so its
    exit status and what it wrote on standard output.  The output is
    taken to be decodable text and the arguments free of NUL characters.
    The file system of the world is the tree the class reads and writes
    itself: what a command writes on disk ([git] under [.git]) is not
    part of it. *)

Record Command := mkCommand { argv : list string; cmd_cwd : string }.

Inductive ProcOutcome :=
  | Exited (status : Z) (output : string)
  | SpawnFailed (e : oserror).

Record CompletedProcess := mkCompleted {
  returncode : Z;
  stdout : option string
}.

(** ** The world *)

Record World := mkWorld {
  fs : filesystem;
  cwd : list string;
  now : datetime;
  proc_oracle : list Command -> Command -> ProcOutcome;
  proc_trace : list Command;
  log_records : list LogRecord;
  root_level : level;
  root_handlers : list Handler
}.

Definition set_fs (f : filesystem) (w : World) : World :=
  mkWorld f (cwd w) (now w) (proc_oracle w) (proc_trace w)
          (log_records w) (root_level w) (root_handlers w).

Definition set_now (t : datetime) (w : World) : World :=
  mkWorld (fs w) (cwd w) t (proc_oracle w) (proc_trace w)
          (log_records w) (root_level w) (root_handlers w).

Definition set_proc_trace (tr : list Command) (w : World) : World :=
  mkWorld (fs w) (cwd w) (now w) (proc_oracle w) tr
          (log_records w) (root_level w) (root_handlers w).

Definition set_log_records (l : list LogRecord) (w : World) : World :=
  mkWorld (fs w) (cwd w) (now w) (proc_oracle w) (proc_trace w)
          l (root_level w) (root_handlers w).

Definition set_root_level (lv : level) (w : World) : World :=
  mkWorld (fs w) (cwd w) (now w) (proc_oracle w) (proc_trace w)
          (log_records w) lv (root_handlers w).

Definition set_root_handlers (hs : list Handler) (w : World) : World :=
  mkWorld (fs w) (cwd w) (now w) (proc_oracle w) (proc_trace w)
          (log_records w) (root_level w) hs.

(** ** Standard-library calls, as computations over the world *)

(** Where a path leads: a relative path starts at the working
    directory. *)
Definition resolve (w : World) (p : Path) : list string :=
  if absolute p then parts p else cwd w ++ parts p.

(** [os.mkdir(p)]: the parent must be a directory and the name free.
    Names are taken to be free of NUL characters, permissions to allow
    the call. *)
Definition os_mkdir (p : Path) : M World unit :=
  fun w =>
    let t := resolve w p in
    match node_at (fs w) (removelast t) with
    | None => (Err (OSError FileNotFoundError), w)
    | Some (File _) => (Err (OSError NotADirectoryError), w)
    | Some Dir =>
        match node_at (fs w) t with
        | Some _ => (Err (OSError FileExistsError), w)
        | None => (Ok tt, set_fs (<[t := Dir]> (fs w)) w)
        end
    end.

(** [p.is_dir()] and [p.exists()]: never raise. *)
Definition is_dir (w : World) (p : Path) : bool :=
  match node_at (fs w) (resolve w p) with
  | Some Dir => true
  | _ => false
  end.

Definition path_exists (w : World) (p : Path) : bool :=
  match node_at (fs w) (resolve w p) with
  | Some _ => true
  | None => false
  end.

Definition Path_is_dir (p : Path) : M World bool := gets (fun w => is_dir w p).
Definition Path_exists (p : Path) : M World bool :=
  gets (fun w => path_exists w p).

(** [Path.mkdir(parents=False, exist_ok=...)]:
    [FileNotFoundError] is re-raised; any other [OSError] is re-raised
    unless [exist_ok] holds and the path is a directory. *)
Definition mkdir_leaf (p : Path) (exist_ok : bool) : M World unit :=
  try_except (os_mkdir p)
    (fun e =>
       match e with
       | OSError FileNotFoundError => None
       | OSError _ =>
           Some (d <- Path_is_dir p;;
                 if negb exist_ok || negb d then raise e else ret tt)
       | _ => None
       end).

(** [Path.mkdir(parents=True, exist_ok=...)], by recursion on the
    components from the last one: on [FileNotFoundError] the parent is
    made with [parents=True, exist_ok=True] and the directory itself
    with [parents=False]; a path without components is its own parent
    and the error is re-raised. *)
Fixpoint mkdir_parents (anchor : bool) (rev_parts : list string)
    (exist_ok : bool) : M World unit :=
  let p := mkPath anchor (rev rev_parts) in
  try_except (os_mkdir p)
    (fun e =>
       match e with
       | OSError FileNotFoundError =>
           match rev_parts with
           | [] => None
           | _ :: rest =>
               Some (mkdir_parents anchor rest true;;;
                     mkdir_leaf p exist_ok)
           end
       | OSError _ =>
           Some (d <- Path_is_dir p;;
                 if negb exist_ok || negb d then raise e else ret tt)
       | _ => None
       end).

Definition Path_mkdir (p : Path) (parents exist_ok : bool) : M World unit :=
  if parents then mkdir_parents (absolute p) (rev (parts p)) exist_ok
  else mkdir_leaf p exist_ok.

(** [list(p.iterdir())]. *)
Definition Path_iterdir (p : Path) : M World (list Path) :=
  fun w =>
    match node_at (fs w) (resolve w p) with
    | None => (Err (OSError FileNotFoundError), w)
    | Some (File _) => (Err (OSError NotADirectoryError), w)
    | Some Dir =>
        (Ok (map (fun c => mkPath (absolute p) (parts p ++ [c]))
                 (entries (fs w) (resolve w p))), w)
    end.

(** [open(p, 'a')]: the file is created empty when absent; the handle
    is the place of the file.  The walk to the parent stops at the first
    component that is not a directory: at a regular file with
    [NotADirectoryError], at a missing name with [FileNotFoundError]. *)
Definition open_append (p : Path) : M World (list string) :=
  fun w =>
    let t := resolve w p in
    match node_at (fs w) (removelast t) with
    | None =>
        if file_above (fs w) (removelast t)
        then (Err (OSError NotADirectoryError), w)
        else (Err (OSError FileNotFoundError), w)
    | Some (File _) => (Err (OSError NotADirectoryError), w)
    | Some Dir =>
        match node_at (fs w) t with
        | Some Dir => (Err (OSError IsADirectoryError), w)
        | Some (File _) => (Ok t, w)
        | None => (Ok t, set_fs (<[t := File ""]> (fs w)) w)
        end
    end.

(** [f.write(s)] on a handle opened for appending.  The device of this
    world is ideal: every text can be encoded and the device is never
    full, so a write to an open file goes through.  What [record_info]
    does when a write does fail is stated over [record_info_with], for
    every behaviour of the two calls. *)
Definition file_write (handle : list string) (s : string) : M World unit :=
  fun w =>
    match fs w !! handle with
    | Some (File c) => (Ok tt, set_fs (<[handle := File (c +:+ s)]> (fs w)) w)
    | _ => (Err (OSError FileNotFoundError), w)
    end.

(** The text of the file at [p], if there is a file. *)
Definition read_text (w : World) (p : Path) : option string :=
  match node_at (fs w) (resolve w p) with
  | Some (File c) => Some c
  | _ => None
  end.

Fixpoint join_slash (l : list string) : string :=
  match l with
  | [] => ""
  | [c] => c
  | c :: l' => c +:+ "/" +:+ join_slash l'
  end.

(** [os.getcwd()]. *)
Definition os_getcwd : M World string :=
  gets (fun w => "/" +:+ join_slash (cwd w)).

(** [subprocess.run(args, check=..., cwd=..., stdout=PIPE if capture)]:
    a process that cannot be started raises the [OSError]; one that ran
    is entered in the trace, and with [check] a non-zero status raises
    [CalledProcessError]. *)
Definition subprocess_run (args : list string) (check : bool)
    (dir : string) (capture : bool) : M World CompletedProcess :=
  fun w =>
    let c := mkCommand args dir in
    match proc_oracle w (proc_trace w) c with
    | SpawnFailed e => (Err (OSError e), w)
    | Exited status out =>
        let w' := set_proc_trace (proc_trace w ++ [c]) w in
        if check && negb (status =? 0)%Z
        then (Err (CalledProcessError status args), w')
        else (Ok (mkCompleted status (if capture then Some out else None)),
              w')
    end.

(** [logging.getLogger()] is the root logger; [setLevel] on it changes
    the process-wide level. *)
Definition logging_getLogger : M World Logger := ret RootLogger.

Definition Logger_setLevel (l : Logger) (lv : level) : M World unit :=
  match l with
  | RootLogger => modify (set_root_level lv)
  | UserLogger _ => ret tt
  end.

Definition Logger_addHandler (l : Logger) (h : Handler) : M World unit :=
  match l with
  | RootLogger => modify (fun w => set_root_handlers (root_handlers w ++ [h]) w)
  | UserLogger _ => ret tt
  end.

(** [logging.FileHandler(filename)]: [filename] is a required
    positional parameter; with it the file is opened for appending. *)
Definition FileHandler (filename : option string) : M World Handler :=
  match filename with
  | None =>
      raise (TypeError "FileHandler.__init__() missing 1 required positional argument: 'filename'")
  | Some f =>
      open_append (Path_of_string f);;;
      ret (mkHandler f None None)
  end.

Definition emit (r : LogRecord) : M World unit :=
  modify (fun w => set_log_records (log_records w ++ [r]) w).

(** [l.info(msg)]. *)
Definition Logger_info (l : Logger) (msg : string) : M World unit :=
  emit (mkLogRecord l INFO msg None).

(** [l.exception(msg)] inside a handler for [e]: level [ERROR], with the
    exception and its traceback attached. *)
Definition Logger_exception (l : Logger) (msg : string) (e : exn)
  : M World unit :=
  emit (mkLogRecord l ERROR msg (Some e)).

(** ** The class [Experiment] *)

Definition LOGS_NAME : string := "logs".

(** An instance attribute that [__init__] does not assign: reading it
    before an assignment raises [AttributeError]. *)
Inductive attr (A : Type) :=
  | Unassigned
  | Assigned (a : A).
Arguments Unassigned {A}.
Arguments Assigned {A} a.

(** [self._id_generator]: the bound method [_default_id_generator], or
    the callable given to the constructor. *)
Inductive id_generator :=
  | DefaultGenerator
  | CustomGenerator (f : M World string).

(** The [logging_module] argument: the string ['default'], [None], or a
    logger. *)
Inductive logging_argument :=
  | LoggingDefault
  | LoggingNone
  | LoggingObject (l : Logger).

(** The instance attributes.  [_output_dir] holds [None] until
    [initialize_experiment] runs; [_experiment_directory] and
    [_logs_dir] do not exist until then. *)
Record Experiment := mkExperiment {
  _experiments_root_dir : Path;
  _outputs_name : string;
  _group_dir : Path;
  _experiment_name : string;
  _output_dir : option Path;
  _id_generator : id_generator;
  _auto_commit_git : bool;
  _log : Logger;
  _experiment_directory : attr Path;
  _logs_dir : attr Path
}.

Definition set_output_dir (v : option Path) (o : Experiment) : Experiment :=
  mkExperiment (_experiments_root_dir o) (_outputs_name o) (_group_dir o)
    (_experiment_name o) v (_id_generator o) (_auto_commit_git o) (_log o)
    (_experiment_directory o) (_logs_dir o).

Definition set_experiment_directory (v : Path) (o : Experiment) : Experiment :=
  mkExperiment (_experiments_root_dir o) (_outputs_name o) (_group_dir o)
    (_experiment_name o) (_output_dir o) (_id_generator o)
    (_auto_commit_git o) (_log o) (Assigned v) (_logs_dir o).

Definition set_logs_dir (v : Path) (o : Experiment) : Experiment :=
  mkExperiment (_experiments_root_dir o) (_outputs_name o) (_group_dir o)
    (_experiment_name o) (_output_dir o) (_id_generator o)
    (_auto_commit_git o) (_log o) (_experiment_directory o) (Assigned v).

(** [Experiment(experiments_root_dir, experiment_name, current_group_name,
    auto_commit_git, outputs_name, logging_module, custom_id_generator)].
    The attributes are computed first; then the logger is chosen, and in
    the ['default'] branch [logging.FileHandler()] is called without a
    file name. *)
Definition Experiment_init
    (experiments_root_dir experiment_name current_group_name : string)
    (auto_commit_git : bool) (outputs_name : string)
    (logging_module : logging_argument)
    (custom_id_generator : option (M World string)) : M World Experiment :=
  let root := Path_of_string experiments_root_dir in
  let gen := match custom_id_generator with
             | Some f => CustomGenerator f
             | None => DefaultGenerator
             end in
  log <- match logging_module with
         | LoggingDefault =>
             l <- logging_getLogger;;
             Logger_setLevel l DEBUG;;;
             file_handler <- FileHandler None;;
             let file_handler :=
               mkHandler (handler_file file_handler) (Some INFO)
                 (Some "%(asctime)s - %(name)s - %(levelname)s - %(message)s") in
             Logger_addHandler l file_handler;;;
             ret l
         | LoggingObject l => ret l
         | LoggingNone =>
             l <- logging_getLogger;;
             Logger_setLevel l DEBUG;;;
             ret l
         end;;
  ret (mkExperiment root outputs_name (root // current_group_name)
         experiment_name None gen auto_commit_git log
         Unassigned Unassigned).

(** The constructor with the defaults of the signature:
    [auto_commit_git=False], [outputs_name='checkpoints'],
    [logging_module='default'], [custom_id_generator=None]. *)
Definition Experiment_init_defaults
    (experiments_root_dir experiment_name current_group_name : string)
  : M World Experiment :=
  Experiment_init experiments_root_dir experiment_name current_group_name
    false "checkpoints" LoggingDefault None.

(** Methods run on the instance and the world together. *)
Definition St : Type := Experiment * World.

Definition liftW {A} (m : M World A) : M St A :=
  fun s => let (r, w') := m (snd s) in (r, (fst s, w')).

Definition self : M St Experiment := gets fst.

Definition getattr {A} (name : string) (a : attr A) : M St A :=
  match a with
  | Assigned v => ret v
  | Unassigned => raise (AttributeError name)
  end.

Definition setattr (f : Experiment -> Experiment) : M St unit :=
  modify (fun s => (f (fst s), snd s)).

(** The three properties. *)
Definition outputs_path : M St (option Path) :=
  o <- self;; ret (_output_dir o).

Definition logs_path : M St Path :=
  o <- self;; getattr "_logs_dir" (_logs_dir o).

Definition experiment_root : M St Path :=
  o <- self;; ret (_experiments_root_dir o).

Definition _get_experiment_index : M St nat :=
  o <- self;;
  e <- liftW (Path_exists (_group_dir o));;
  if (e : bool) then
    l <- liftW (Path_iterdir (_group_dir o));;
    ret (length l)
  else ret 0.

(** The body of [record_info], with the two calls it makes ([open] in
    append mode and [write]) as parameters. *)
Definition record_info_with
    (open_a : Path -> M World (list string))
    (write : list string -> string -> M World unit)
    (info : string) : M St unit :=
  o <- self;;
  d <- getattr "_experiment_directory" (_experiment_directory o);;
  f <- liftW (open_a (d // "info.txt"));;
  liftW (write f (info +:+ newline)).

Definition record_info : string -> M St unit :=
  record_info_with open_append file_write.

Definition _default_id_generator : M St string :=
  experiment_index <- _get_experiment_index;;
  t <- liftW (gets now);;
  ret (str_of_nat experiment_index +:+ "_" +:+ strftime t).

Definition call_id_generator (g : id_generator) : M St string :=
  match g with
  | DefaultGenerator => _default_id_generator
  | CustomGenerator f => liftW f
  end.

Definition _record_commit_hash (commit_hash : string) : M St unit :=
  record_info ("commit_hash: " +:+ commit_hash).

(** The body of the [try] block of [_do_auto_commit]. *)
Definition snapshot_sequence (commit_message : string) : M St unit :=
  cur_cwd <- liftW os_getcwd;;
  liftW (subprocess_run ["git"; "add"; "."] true cur_cwd false);;;
  liftW (subprocess_run ["git"; "diff"; "--staged"; "--quiet"] false cur_cwd
           false);;;
  liftW (subprocess_run ["git"; "commit"; "-m"; commit_message] true cur_cwd
           false);;;
  commit_hash_result <-
    liftW (subprocess_run ["git"; "rev-parse"; "HEAD"] true cur_cwd true);;
  out <- match stdout commit_hash_result with
         | Some s => ret s
         | None => raise (AttributeError "strip")
         end;;
  _record_commit_hash (strip out).

(** [_do_auto_commit]: only [subprocess.CalledProcessError] is handled.
    The [push] argument is not used. *)
Definition _do_auto_commit (commit_message : string) (push : bool)
  : M St unit :=
  try_except (snapshot_sequence commit_message)
    (fun e =>
       match e with
       | CalledProcessError _ _ =>
           Some (o <- self;;
                 liftW (Logger_exception (_log o) "Git command failed: " e))
       | _ => None
       end).

Definition initialize_experiment : M St unit :=
  o <- self;;
  liftW (Logger_info (_log o)
           ("Initializing experiment: " +:+ Path_name (_group_dir o) +:+ "/"
            +:+ _experiment_name o));;;
  id <- call_id_generator (_id_generator o);;
  setattr (set_experiment_directory (_group_dir o // id));;;
  o <- self;;
  d <- getattr "_experiment_directory" (_experiment_directory o);;
  setattr (set_logs_dir (d // LOGS_NAME));;;
  o <- self;;
  l <- getattr "_logs_dir" (_logs_dir o);;
  liftW (Path_mkdir l true true);;;
  d <- getattr "_experiment_directory" (_experiment_directory o);;
  setattr (set_output_dir (Some (d // _outputs_name o)));;;
  if _auto_commit_git o then
    liftW (Logger_info (_log o) "auto-creating experiment commit...");;;
    _do_auto_commit
      ("Experiment auto-commit: " +:+ Path_name (_group_dir o) +:+ "/"
       +:+ _experiment_name o) false
  else ret tt.

(** ** Observations used in the statements *)

(** The place of [info.txt] once the experiment directory is known. *)
Definition info_file (d : Path) : Path := d // "info.txt".

(** Whether some line of a text starts with [commit_hash:]. *)
Definition has_commit_hash_line (content : string) : bool :=
  existsb (fun l => startswith l "commit_hash:") (file_lines content).

(** The commands of a trace that are a [git push]. *)
Definition is_push (c : Command) : bool :=
  match argv c with
  | g :: p :: _ => String.eqb g "git" && String.eqb p "push"
  | _ => false
  end.

(** ** Sample worlds *)

Definition head_hash : string := "4b825dc642cb6eb9a060e54bf8d69288fbee4904".

(** A repository in which every git command succeeds; the staged-diff
    probe reports a difference (status 1), and [rev-parse] prints the
    hash followed by a newline. *)
Definition git_dirty (tr : list Command) (c : Command) : ProcOutcome :=
  match argv c with
  | _ :: sub :: _ =>
      if String.eqb sub "diff" then Exited 1 ""
      else if String.eqb sub "rev-parse" then Exited 0 (head_hash +:+ newline)
      else Exited 0 ""
  | _ => SpawnFailed FileNotFoundError
  end.

(** A repository with nothing to commit: [git commit] exits with 1. *)
Definition git_clean (tr : list Command) (c : Command) : ProcOutcome :=
  match argv c with
  | _ :: sub :: _ =>
      if String.eqb sub "commit" then Exited 1 "nothing to commit"
      else if String.eqb sub "rev-parse" then Exited 0 (head_hash +:+ newline)
      else Exited 0 ""
  | _ => SpawnFailed FileNotFoundError
  end.

(** A machine without a [git] executable: no command can be started. *)
Definition git_missing (tr : list Command) (c : Command) : ProcOutcome :=
  SpawnFailed FileNotFoundError.

(** The [k]-th command run (from 0) exits with status 128; the others
    succeed. *)
Definition git_failing_at (k : nat) (tr : list Command) (c : Command)
  : ProcOutcome :=
  if (length tr =? k)%nat then Exited 128 "" else Exited 0 (head_hash +:+ newline).

(** [write] where the encoding of text files is ASCII: a text with a
    character beyond it raises [UnicodeEncodeError] and writes
    nothing. *)
Definition ascii_write (handle : list string) (s : string) : M World unit :=
  if forallb (fun c => (nat_of_ascii c <? 128)%nat) (list_ascii_of_string s)
  then file_write handle s
  else raise (OtherError "UnicodeEncodeError").

(** A one-character text, the character being U+00E9 in Latin-1. *)
Definition e_acute : string := String (ascii_of_nat 233) "".

Definition noon : datetime := mkDatetime 2024 3 9 12 0 0 0.
Definition noon_and_a_second : datetime := mkDatetime 2024 3 9 12 0 1 0.

(** A machine with [/work] as working directory and nothing else. *)
Definition bare_world (oracle : list Command -> Command -> ProcOutcome)
  : World :=
  mkWorld (<[ ["work"] := Dir ]> ∅) ["work"] noon oracle [] [] WARNING [].

(** The same with a group directory [/work/runs/mnist] that has three
    entries, one of them with an entry of its own. *)
Definition three_entries : filesystem :=
  <[ ["work"; "runs"; "mnist"; "a"; "logs"] := Dir ]>
  (<[ ["work"; "runs"; "mnist"; "a"] := Dir ]>
  (<[ ["work"; "runs"; "mnist"; "b"] := Dir ]>
  (<[ ["work"; "runs"; "mnist"; "notes.txt"] := File "" ]>
  (<[ ["work"; "runs"; "mnist"] := Dir ]>
  (<[ ["work"; "runs"] := Dir ]>
  (<[ ["work"] := Dir ]> ∅)))))).

Definition busy_world : World :=
  mkWorld three_entries ["work"] noon git_dirty [] [] WARNING [].

(** The state that [initialize_experiment] leaves. *)
Definition run_initialize (o : Experiment) (w : World) : St :=
  snd (initialize_experiment (o, w)).

(** An instance as the constructor leaves it when given a logger. *)
Definition sample (auto_commit : bool) (outputs : string) : Experiment :=
  mkExperiment (Path_of_string "runs") outputs
    (Path_of_string "runs" // "mnist") "baseline" None DefaultGenerator
    auto_commit (UserLogger "train") Unassigned Unassigned.

(** ** Vocabulary of the statements *)

(** What the default generator returns in a world, given the group
    directory. *)
Definition default_id (g : Path) (w : World) : Result string :=
  match node_at (fs w) (resolve w g) with
  | None => Ok (str_of_nat 0 +:+ "_" +:+ strftime (now w))
  | Some Dir =>
      Ok (str_of_nat (length (entries (fs w) (resolve w g))) +:+ "_"
          +:+ strftime (now w))
  | Some (File _) => Err (OSError NotADirectoryError)
  end.

(** The generator of an instance, run on the world alone. *)
Definition generate (g : id_generator) (group : Path) (w : World)
  : Result string * World :=
  match g with
  | DefaultGenerator => (default_id group w, w)
  | CustomGenerator f => f w
  end.

Definition log_info (l : Logger) (msg : string) (w : World) : World :=
  set_log_records (log_records w ++ [mkLogRecord l INFO msg None]) w.

Definition opening_message (o : Experiment) : string :=
  "Initializing experiment: " +:+ Path_name (_group_dir o) +:+ "/"
  +:+ _experiment_name o.

Definition commit_message (o : Experiment) : string :=
  "Experiment auto-commit: " +:+ Path_name (_group_dir o) +:+ "/"
  +:+ _experiment_name o.

(** The instance once the three derived attributes are assigned. *)
Definition with_directories (id : string) (o : Experiment) : Experiment :=
  let d := _group_dir o // id in
  set_output_dir (Some (d // _outputs_name o))
    (set_logs_dir (d // LOGS_NAME) (set_experiment_directory d o)).

(** Two worlds that differ at most in their file systems. *)
Definition same_but_fs (w w' : World) : Prop :=
  w' = set_fs (fs w') w.

(** [w'] has the nodes of [w] and possibly new directories, all of them
    on the way to [t]. *)
Definition dirs_added (t : list string) (w w' : World) : Prop :=
  same_but_fs w w' /\
  forall k, fs w' !! k = fs w !! k \/
            (fs w !! k = None /\ fs w' !! k = Some Dir /\ k `prefix_of` t).

(** In a well-formed file system every node sits in a directory. *)
Definition well_formed (f : filesystem) : Prop :=
  forall k n, f !! k = Some n -> node_at f (removelast k) = Some Dir.

(** No file stands where a directory is needed on the way to [t]. *)
Definition no_file_on_the_way (f : filesystem) (t : list string) : Prop :=
  forall k c, k `prefix_of` t -> node_at f k <> Some (File c).

(** A name that is one path component: not empty, not [.] or [..], and
    without a slash. *)
Definition plain_name (s : string) : Prop :=
  s <> "" /\ s <> "." /\ s <> ".." /\ occurs slash s = false.

Definition stage_args : list string := ["git"; "add"; "."].
Definition probe_args : list string := ["git"; "diff"; "--staged"; "--quiet"].
Definition commit_args (msg : string) : list string :=
  ["git"; "commit"; "-m"; msg].
Definition read_head_args : list string := ["git"; "rev-parse"; "HEAD"].

(** A git command started in the working directory of the process. *)
Definition git_command (w : World) (args : list string) : Command :=
  mkCommand args ("/" +:+ join_slash (cwd w)).

(** In world [w], once the commands [done] have run, the command [args]
    exits with status [st] after writing [out]. *)
Definition exits (w : World) (done : list (list string))
    (args : list string) (st : Z) (out : string) : Prop :=
  proc_oracle w (proc_trace w ++ map (git_command w) done)
    (git_command w args) = Exited st out.

(** The sequence fails at one of its three checked steps; the index is
    the [CalledProcessError] that the step raises. *)
Inductive snapshot_fails (w : World) (msg : string) : exn -> Prop :=
  | stage_fails st out :
      exits w [] stage_args st out -> st <> 0%Z ->
      snapshot_fails w msg (CalledProcessError st stage_args)
  | commit_fails out1 st2 out2 st out :
      exits w [] stage_args 0 out1 ->
      exits w [stage_args] probe_args st2 out2 ->
      exits w [stage_args; probe_args] (commit_args msg) st out ->
      st <> 0%Z ->
      snapshot_fails w msg (CalledProcessError st (commit_args msg))
  | read_head_fails out1 st2 out2 out3 st out :
      exits w [] stage_args 0 out1 ->
      exits w [stage_args] probe_args st2 out2 ->
      exits w [stage_args; probe_args] (commit_args msg) 0 out3 ->
      exits w [stage_args; probe_args; commit_args msg] read_head_args st out ->
      st <> 0%Z ->
      snapshot_fails w msg (CalledProcessError st read_head_args).

(** The world once the commands [done] have run. *)
Definition after_commands (w : World) (done : list (list string)) : World :=
  set_proc_trace (proc_trace w ++ map (git_command w) done) w.

(** The trace of a run of the sequence: the commands of the sequence, in
    order, up to the one at which it stopped. *)
Definition sequence_commands (msg : string) : list (list string) :=
  [stage_args; probe_args; commit_args msg; read_head_args].

Definition set_auto_commit_git (b : bool) (o : Experiment) : Experiment :=
  mkExperiment (_experiments_root_dir o) (_outputs_name o) (_group_dir o)
    (_experiment_name o) (_output_dir o) (_id_generator o) b (_log o)
    (_experiment_directory o) (_logs_dir o).

Fixpoint all_space (s : string) : bool :=
  match s with
  | EmptyString => true
  | String c s' => py_isspace c && all_space s'
  end.

Definition head_is_space (s : string) : bool :=
  match s with
  | EmptyString => false
  | String c _ => py_isspace c
  end.

Fixpoint last_is_space (s : string) : bool :=
  match s with
  | EmptyString => false
  | String c EmptyString => py_isspace c
  | String _ s' => last_is_space s'
  end.


(** Two worlds with the same working directory and the same
    directories. *)
Definition same_dirs (w w' : World) : Prop :=
  cwd w' = cwd w /\
  forall k, fs w' !! k = Some Dir <-> fs w !! k = Some Dir.


Definition is_digit (c : ascii) : bool :=
  let n := nat_of_ascii c in ((48 <=? n) && (n <=? 57))%nat.

Fixpoint all_digits (s : string) : bool :=
  match s with
  | EmptyString => true
  | String c s' => is_digit c && all_digits s'
  end.

(** Reading a decimal number back. *)
Definition nat_of_str (s : string) : option nat :=
  option_map Nat.of_uint (NilZero.uint_of_string s).

(** Two instances that were configured alike: they agree on everything
    but the attributes that [initialize_experiment] assigns. *)
Definition same_configuration (o1 o2 : Experiment) : Prop :=
  _experiments_root_dir o1 = _experiments_root_dir o2 /\
  _outputs_name o1 = _outputs_name o2 /\
  _group_dir o1 = _group_dir o2 /\
  _experiment_name o1 = _experiment_name o2 /\
  _id_generator o1 = _id_generator o2 /\
  _auto_commit_git o1 = _auto_commit_git o2 /\
  _log o1 = _log o2.

(** A group directory that already holds the directory the default
    generator will name at noon. *)
Definition crowded_world : World :=
  mkWorld
    (<[ ["work"; "runs"; "mnist"; "1_2024-03-09_12-00-00"] := Dir ]>
     (<[ ["work"; "runs"; "mnist"] := Dir ]>
     (<[ ["work"; "runs"] := Dir ]>
     (<[ ["work"] := Dir ]> ∅))))
    ["work"] noon git_dirty [] [] WARNING [].

Definition well_formedb (f : filesystem) : bool :=
  forallb (fun kn => is_Dir (node_at f (removelast (fst kn)))) (map_to_list f).

Definition no_file_on_the_wayb (f : filesystem) (t : list string) : bool :=
  forallb (fun k => negb (is_File (node_at f k))) (prefixes t).

(** The state that [initialize_experiment] leaves when run on the sample
    instance in the bare world. *)
Definition initialized (auto_commit : bool)
    (oracle : list Command -> Command -> ProcOutcome) : St :=
  run_initialize (sample auto_commit "checkpoints") (bare_world oracle).

Definition first_directory : Path :=
  Path_of_string "runs" // "mnist" // "0_2024-03-09_12-00-00".

Definition announcement (o : Experiment) : LogRecord :=
  mkLogRecord (_log o) INFO "auto-creating experiment commit..." None.


(** [w'] keeps every node of [w]: directories as directories, files as
    files whose text starts with the text they had. *)
Definition only_grows (w w' : World) : Prop :=
  forall k,
    (fs w !! k = Some Dir -> fs w' !! k = Some Dir) /\
    (forall c, fs w !! k = Some (File c) ->
               exists c', fs w' !! k = Some (File (c +:+ c'))).

(** A machine where the group path [/work/runs/mnist] is a regular
    file. *)
Definition group_file_world : World :=
  mkWorld
    (<[ ["work"; "runs"; "mnist"] := File "" ]>
     (<[ ["work"; "runs"] := Dir ]>
     (<[ ["work"] := Dir ]> ∅)))
    ["work"] noon git_dirty [] [] WARNING [].

(** A group directory whose one entry is a regular file with the name
    that the default generator chooses at noon. *)
Definition obstructed_world : World :=
  mkWorld
    (<[ ["work"; "runs"; "mnist"; "1_2024-03-09_12-00-00"] := File "" ]>
     (<[ ["work"; "runs"; "mnist"] := Dir ]>
     (<[ ["work"; "runs"] := Dir ]>
     (<[ ["work"] := Dir ]> ∅))))
    ["work"] noon git_dirty [] [] WARNING [].

(** An experiment directory [run] in which [info.txt] is a directory. *)
Definition info_directory_world : World :=
  mkWorld
    (<[ ["work"; "runs"; "mnist"; "run"; "info.txt"] := Dir ]>
     (<[ ["work"; "runs"; "mnist"; "run"] := Dir ]>
     (<[ ["work"; "runs"; "mnist"] := Dir ]>
     (<[ ["work"; "runs"] := Dir ]>
     (<[ ["work"] := Dir ]> ∅)))))
    ["work"] noon git_dirty [] [] WARNING [].

(** * Properties *)

(** ** Running the monad *)

Arguments Path_mkdir : simpl never.
Arguments truediv : simpl never.
Arguments Path_of_string : simpl never.
Arguments _do_auto_commit : simpl never.
Arguments strftime : simpl never.
Arguments str_of_nat : simpl never.
Arguments String.append : simpl never.

Ltac run_step :=
  unfold bind, ret, raise, get, gets, modify, self, setattr, liftW,
    try_except, getattr; simpl.

Lemma bind_Ok {S A B} (m : M S A) (k : A -> M S B) s a s' :
  m s = (Ok a, s') -> bind m k s = k a s'.
Proof. intros H. unfold bind. now rewrite H. Qed.

Lemma bind_Err {S A B} (m : M S A) (k : A -> M S B) s e s' :
  m s = (Err e, s') -> bind m k s = (Err e, s').
Proof. intros H. unfold bind. now rewrite H. Qed.

Lemma liftW_run {A} (m : M World A) o w :
  liftW m (o, w) = (fst (m w), (o, snd (m w))).
Proof. unfold liftW. simpl. now destruct (m w). Qed.

Lemma state_eta {A} (x : Result A * St) :
  x = (fst x, (fst (snd x), snd (snd x))).
Proof. now destruct x as [r [o w]]. Qed.

Lemma pair_with_fst {A B} (x : A * B) (a : A) : fst x = a -> x = (a, snd x).
Proof. destruct x. simpl. now intros ->. Qed.

(** ** The constructor *)

Lemma Experiment_init_with_logger root name group auto outputs l gen w :
  Experiment_init root name group auto outputs (LoggingObject l) gen w =
  (Ok (mkExperiment (Path_of_string root) outputs
         (Path_of_string root // group) name None
         (match gen with
          | Some f => CustomGenerator f
          | None => DefaultGenerator
          end) auto l Unassigned Unassigned), w).
Proof. reflexivity. Qed.

Lemma Experiment_init_without_logger root name group auto outputs gen w :
  Experiment_init root name group auto outputs LoggingNone gen w =
  (Ok (mkExperiment (Path_of_string root) outputs
         (Path_of_string root // group) name None
         (match gen with
          | Some f => CustomGenerator f
          | None => DefaultGenerator
          end) auto RootLogger Unassigned Unassigned),
   set_root_level DEBUG w).
Proof. reflexivity. Qed.

Lemma Experiment_init_default_logger root name group auto outputs gen w :
  Experiment_init root name group auto outputs LoggingDefault gen w =
  (Err (TypeError "FileHandler.__init__() missing 1 required positional argument: 'filename'"),
   set_root_level DEBUG w).
Proof. reflexivity. Qed.

(** Whatever the arguments, an instance that the constructor returns has
    the root path it was given, [None] as outputs directory, and neither
    an experiment directory nor a logs directory. *)
Lemma Experiment_init_Ok root name group auto outputs logging gen w o w' :
  Experiment_init root name group auto outputs logging gen w = (Ok o, w') ->
  _experiments_root_dir o = Path_of_string root /\
  _output_dir o = None /\
  _experiment_directory o = Unassigned /\
  _logs_dir o = Unassigned /\
  fs w' = fs w /\ proc_trace w' = proc_trace w.
Proof.
  destruct logging.
  - rewrite Experiment_init_default_logger. discriminate.
  - rewrite Experiment_init_without_logger. intros [= <- <-]. now repeat split.
  - rewrite Experiment_init_with_logger. intros [= <- <-]. now repeat split.
Qed.

(** C9 (the code departs from the claim): with the logger argument left
    at its default, the constructor does not build a logger with a file
    handler; it raises [TypeError], because [logging.FileHandler] is
    called without the file name it requires.  The process-wide level of
    the root logger has been set to [DEBUG] by then. *)
Theorem default_logger_construction_raises root name group w :
  Experiment_init_defaults root name group w =
  (Err (TypeError "FileHandler.__init__() missing 1 required positional argument: 'filename'"),
   set_root_level DEBUG w).
Proof. reflexivity. Qed.

(** ** The accessors before [initialize_experiment] *)

Lemma record_info_root_unchanged info o w r o' w' :
  record_info info (o, w) = (r, (o', w')) -> o' = o.
Proof.
  unfold record_info, record_info_with. run_step.
  destruct (_experiment_directory o) as [|d]; simpl.
  - now intros [= _ <- _].
  - destruct (open_append (d // "info.txt") w) as [[f|e] w1]; simpl.
    + destruct (file_write f (info +:+ newline) w1) as [r2 w2]; simpl.
      now intros [= _ <- _].
    + now intros [= _ <- _].
Qed.

(** ** [initialize_experiment], step by step *)

Lemma default_id_generator_run o w :
  _default_id_generator (o, w) = (default_id (_group_dir o) w, (o, w)).
Proof.
  unfold _default_id_generator, _get_experiment_index, default_id.
  unfold Path_exists, Path_iterdir, path_exists. run_step.
  destruct (node_at (fs w) (resolve w (_group_dir o))) as [[c|]|] eqn:E;
    simpl; rewrite ?E; simpl; try reflexivity.
  now rewrite length_map.
Qed.

Lemma call_id_generator_run o w :
  call_id_generator (_id_generator o) (o, w) =
  (fst (generate (_id_generator o) (_group_dir o) w),
   (o, snd (generate (_id_generator o) (_group_dir o) w))).
Proof.
  unfold call_id_generator, generate.
  destruct (_id_generator o).
  - apply default_id_generator_run.
  - apply liftW_run.
Qed.

Lemma initialize_experiment_run o w :
  initialize_experiment (o, w) =
  match generate (_id_generator o) (_group_dir o)
          (log_info (_log o) (opening_message o) w) with
  | (Err e, w1) => (Err e, (o, w1))
  | (Ok id, w1) =>
      let d := _group_dir o // id in
      match Path_mkdir (d // LOGS_NAME) true true w1 with
      | (Err e, w2) =>
          (Err e, (set_logs_dir (d // LOGS_NAME)
                     (set_experiment_directory d o), w2))
      | (Ok _, w2) =>
          if _auto_commit_git o then
            _do_auto_commit (commit_message o) false
              (with_directories id o,
               log_info (_log o) "auto-creating experiment commit..." w2)
          else (Ok tt, (with_directories id o, w2))
      end
  end.
Proof.
  unfold initialize_experiment.
  unfold bind at 1. unfold self at 1, gets at 1. cbv beta iota.
  unfold bind at 1. rewrite liftW_run. unfold Logger_info, emit, modify.
  cbn [fst snd].
  change (set_log_records _ w) with (log_info (_log o) (opening_message o) w).
  unfold bind at 1. rewrite call_id_generator_run.
  destruct (generate _ _ _) as [[id|e] w1]; cbn [fst snd]; [|reflexivity].
  run_step.
  destruct (Path_mkdir _ true true w1) as [[[]|e] w2]; cbn [fst snd];
    [|reflexivity].
  destruct (_auto_commit_git o); reflexivity.
Qed.

(** ** Directory creation *)

Lemma same_but_fs_refl w : same_but_fs w w.
Proof. unfold same_but_fs. now destruct w. Qed.

Lemma same_but_fs_set f w : same_but_fs w (set_fs f w).
Proof. reflexivity. Qed.

Lemma same_but_fs_trans w1 w2 w3 :
  same_but_fs w1 w2 -> same_but_fs w2 w3 -> same_but_fs w1 w3.
Proof.
  unfold same_but_fs. intros H1 H2. rewrite H2 at 1. rewrite H1 at 1.
  reflexivity.
Qed.

Lemma same_but_fs_cwd w w' : same_but_fs w w' -> cwd w' = cwd w.
Proof. intros ->. reflexivity. Qed.

Lemma same_but_fs_resolve w w' p :
  same_but_fs w w' -> resolve w' p = resolve w p.
Proof. intros H. unfold resolve. now rewrite (same_but_fs_cwd _ _ H). Qed.

Lemma same_but_fs_eq w w' : same_but_fs w w' -> fs w' = fs w -> w' = w.
Proof. unfold same_but_fs. intros -> E. simpl in E. rewrite E. now destruct w. Qed.

Create HintDb fsdb.
#[local] Hint Resolve same_but_fs_refl same_but_fs_set : fsdb.

Lemma dirs_added_refl t w : dirs_added t w w.
Proof. split; [apply same_but_fs_refl | now left]. Qed.

Lemma dirs_added_trans t1 t2 w1 w2 w3 :
  t1 `prefix_of` t2 ->
  dirs_added t1 w1 w2 -> dirs_added t2 w2 w3 -> dirs_added t2 w1 w3.
Proof.
  intros Hp [S1 F1] [S2 F2]. split; [eapply same_but_fs_trans; eauto|].
  intros k. destruct (F2 k) as [E2|(N2 & D2 & P2)].
  - rewrite E2. destruct (F1 k) as [E1|(N1 & D1 & P1)]; [now left|].
    right. repeat split; auto. now transitivity t1.
  - destruct (F1 k) as [E1|(N1 & D1 & P1)].
    + right. rewrite <- E1. auto.
    + congruence.
Qed.

Lemma node_at_insert fs0 t n k :
  t <> [] -> node_at (<[t := n]> fs0) k =
             if decide (t = k) then Some n else node_at fs0 k.
Proof.
  intros Ht. destruct k as [|c k]; simpl.
  - destruct (decide (t = [])); [contradiction | reflexivity].
  - rewrite lookup_insert. reflexivity.
Qed.

Lemma node_at_None_nonempty fs0 t : node_at fs0 t = None -> t <> [].
Proof. now destruct t. Qed.

Lemma node_at_lookup fs0 t : t <> [] -> node_at fs0 t = fs0 !! t.
Proof. now destruct t. Qed.

(** The outcomes of [os.mkdir]. *)
Lemma os_mkdir_run p w r w' :
  os_mkdir p w = (r, w') ->
  (r = Ok tt /\ w' = set_fs (<[resolve w p := Dir]> (fs w)) w /\
   node_at (fs w) (resolve w p) = None /\
   node_at (fs w) (removelast (resolve w p)) = Some Dir) \/
  (w' = w /\
   ((r = Err (OSError FileNotFoundError) /\
     node_at (fs w) (removelast (resolve w p)) = None) \/
    (r = Err (OSError NotADirectoryError) /\
     exists c, node_at (fs w) (removelast (resolve w p)) = Some (File c)) \/
    (r = Err (OSError FileExistsError) /\
     node_at (fs w) (removelast (resolve w p)) = Some Dir /\
     exists n, node_at (fs w) (resolve w p) = Some n))).
Proof.
  unfold os_mkdir.
  destruct (node_at (fs w) (removelast (resolve w p))) as [[c|]|] eqn:Ep.
  - intros [= <- <-]. right. split; eauto.
  - destruct (node_at (fs w) (resolve w p)) as [n|] eqn:Et.
    + intros [= <- <-]. right. split; eauto 6.
    + intros [= <- <-]. left. auto.
  - intros [= <- <-]. right. split; auto.
Qed.

Lemma os_mkdir_dirs_added p w r w' :
  os_mkdir p w = (r, w') -> dirs_added (resolve w p) w w'.
Proof.
  intros H. apply os_mkdir_run in H.
  destruct H as [(-> & -> & Hn & Hp)|[-> _]]; [|apply dirs_added_refl].
  split; [apply same_but_fs_set|]. intros k. simpl.
  destruct (decide (resolve w p = k)) as [<-|Hne].
  - right. rewrite lookup_insert_eq.
    assert (Hne : resolve w p <> []) by (eapply node_at_None_nonempty; eauto).
    rewrite node_at_lookup in Hn by assumption.
    auto.
  - left. now rewrite lookup_insert_ne.
Qed.

Lemma os_mkdir_Ok_is_dir p w w' :
  os_mkdir p w = (Ok tt, w') -> is_dir w' p = true.
Proof.
  intros H. apply os_mkdir_run in H.
  destruct H as [(_ & -> & Hn & _)|[_ [[? _]|[[? _]|[? _]]]]]; try discriminate.
  unfold is_dir. simpl. change (resolve (set_fs _ w) p) with (resolve w p).
  rewrite node_at_insert by (eapply node_at_None_nonempty; eauto).
  now rewrite decide_True.
Qed.

Lemma is_dir_dirs_added t w w' p :
  dirs_added t w w' -> is_dir w p = true -> is_dir w' p = true.
Proof.
  intros [S F]. unfold is_dir. rewrite (same_but_fs_resolve _ _ _ S).
  destruct (resolve w p) as [|c k]; [auto|]. simpl.
  destruct (F (c :: k)) as [->|(-> & -> & _)]; auto.
Qed.

(** [mkdir] without [parents]. *)
Lemma mkdir_leaf_run p ok w r w' :
  mkdir_leaf p ok w = (r, w') ->
  dirs_added (resolve w p) w w' /\ (r = Ok tt -> is_dir w' p = true).
Proof.
  unfold mkdir_leaf, try_except.
  destruct (os_mkdir p w) as [[[]|e] w1] eqn:E.
  - intros [= <- <-]. split; [eapply os_mkdir_dirs_added; eauto|].
    intros _. eapply os_mkdir_Ok_is_dir; eauto.
  - destruct (os_mkdir_run _ _ _ _ E) as [(? & _)|[Hw Hc]]; [discriminate|].
    subst w1. destruct Hc as [[He _]|[[He _]|[He _]]]; injection He as ->.
    + intros [= <- <-]. split; [apply dirs_added_refl | discriminate].
    + run_step. destruct (negb ok || negb (is_dir w p)) eqn:B.
      * intros [= <- <-]. split; [apply dirs_added_refl | discriminate].
      * intros [= <- <-]. split; [apply dirs_added_refl|].
        intros _. apply orb_false_elim in B as [_ B].
        now apply negb_false_iff in B.
    + run_step. destruct (negb ok || negb (is_dir w p)) eqn:B.
      * intros [= <- <-]. split; [apply dirs_added_refl | discriminate].
      * intros [= <- <-]. split; [apply dirs_added_refl|].
        intros _. apply orb_false_elim in B as [_ B].
        now apply negb_false_iff in B.
Qed.

Lemma dirs_added_weaken t1 t2 w w' :
  t1 `prefix_of` t2 -> dirs_added t1 w w' -> dirs_added t2 w w'.
Proof.
  intros Hp H. eapply dirs_added_trans; eauto. apply dirs_added_refl.
Qed.

Lemma resolve_snoc w a l c :
  resolve w (mkPath a (l ++ [c])) = (resolve w (mkPath a l) ++ [c])%list.
Proof. unfold resolve. simpl. destruct a; [reflexivity | now rewrite app_assoc]. Qed.

Lemma mkdir_handler_run (e : exn) p ok w r w' :
  (d <- Path_is_dir p;; if negb ok || negb d then raise e else ret tt) w
  = (r, w') ->
  w' = w /\ (r = Ok tt -> is_dir w p = true).
Proof.
  run_step. destruct (negb ok || negb (is_dir w p)) eqn:B.
  - intros [= <- <-]. split; [reflexivity | discriminate].
  - intros [= <- <-]. split; [reflexivity|]. intros _.
    apply orb_false_elim in B as [_ B]. now apply negb_false_iff in B.
Qed.

(** [mkdir] with [parents]: whatever the outcome, only directories on
    the way to the target have been added; after a normal return the
    target is a directory. *)
Lemma mkdir_parents_run a rp ok w r w' :
  mkdir_parents a rp ok w = (r, w') ->
  dirs_added (resolve w (mkPath a (rev rp))) w w' /\
  (r = Ok tt -> is_dir w' (mkPath a (rev rp)) = true).
Proof.
  revert ok w r w'. induction rp as [|c rest IH]; intros ok w r w'.
  - simpl. unfold try_except.
    destruct (os_mkdir (mkPath a []) w) as [[[]|e] w1] eqn:E.
    + intros [= <- <-]. split; [eapply os_mkdir_dirs_added; eauto|].
      intros _. eapply os_mkdir_Ok_is_dir; eauto.
    + destruct (os_mkdir_run _ _ _ _ E) as [(? & _)|[Hw Hc]]; [discriminate|].
      subst w1. destruct Hc as [[He _]|[[He _]|[He _]]]; injection He as ->.
      * intros [= <- <-]. split; [apply dirs_added_refl | discriminate].
      * intros H. apply mkdir_handler_run in H as [-> H].
        split; [apply dirs_added_refl | exact H].
      * intros H. apply mkdir_handler_run in H as [-> H].
        split; [apply dirs_added_refl | exact H].
  - cbn [mkdir_parents]. unfold try_except.
    set (p := mkPath a (rev (c :: rest))).
    destruct (os_mkdir p w) as [[[]|e] w1] eqn:E.
    + intros [= <- <-]. split; [eapply os_mkdir_dirs_added; eauto|].
      intros _. eapply os_mkdir_Ok_is_dir; eauto.
    + destruct (os_mkdir_run _ _ _ _ E) as [(? & _)|[Hw Hc]]; [discriminate|].
      subst w1. destruct Hc as [[He _]|[[He _]|[He _]]]; injection He as ->.
      * unfold bind.
        destruct (mkdir_parents a rest true w) as [[[]|e1] w1] eqn:E1.
        -- destruct (IH _ _ _ _ E1) as [D1 _].
           assert (R : resolve w1 p = resolve w p)
             by (apply same_but_fs_resolve, D1).
           intros H. apply mkdir_leaf_run in H as [D2 H2]. rewrite R in D2.
           split; [|exact H2].
           apply (dirs_added_trans (resolve w (mkPath a (rev rest))) _ w w1 w');
             [|exact D1|exact D2].
           unfold p. simpl rev. rewrite resolve_snoc. eexists; reflexivity.
        -- destruct (IH _ _ _ _ E1) as [D1 _].
           intros [= <- <-]. split; [|discriminate].
           apply (dirs_added_weaken (resolve w (mkPath a (rev rest))));
             [|exact D1].
           unfold p. simpl rev. rewrite resolve_snoc. eexists; reflexivity.
      * intros H. apply mkdir_handler_run in H as [-> H].
        split; [apply dirs_added_refl | exact H].
      * intros H. apply mkdir_handler_run in H as [-> H].
        split; [apply dirs_added_refl | exact H].
Qed.

Lemma Path_mkdir_parents_run p w r w' :
  Path_mkdir p true true w = (r, w') ->
  dirs_added (resolve w p) w w' /\ (r = Ok tt -> is_dir w' p = true).
Proof.
  unfold Path_mkdir. intros H. apply mkdir_parents_run in H.
  rewrite rev_involutive in H. now destruct p.
Qed.

Lemma well_formed_parent f t n :
  well_formed f -> node_at f t = Some n ->
  node_at f (removelast t) = Some Dir.
Proof.
  intros W H. destruct t as [|c k]; [reflexivity|]. eapply W. exact H.
Qed.

Lemma well_formed_insert_dir f t :
  well_formed f -> node_at f (removelast t) = Some Dir ->
  well_formed (<[t := Dir]> f).
Proof.
  intros W Hp k n Hk.
  destruct (decide (t = [])) as [->|Ht].
  - destruct (decide (k = [])) as [->|Hk0]; [reflexivity|].
    rewrite lookup_insert_ne in Hk by auto.
    apply W in Hk. destruct (removelast k) eqn:Er; [reflexivity|].
    simpl in *. now rewrite lookup_insert_ne.
  - rewrite node_at_insert by assumption.
    destruct (decide (t = removelast k)); [reflexivity|].
    rewrite lookup_insert in Hk. destruct (decide (t = k)) as [<-|].
    + exact Hp.
    + eapply W; eauto.
Qed.

(** A directory that is already there: no error, nothing changed. *)
Lemma Path_mkdir_existing p w :
  well_formed (fs w) ->
  is_dir w p = true -> Path_mkdir p true true w = (Ok tt, w).
Proof.
  intros W Hd. unfold Path_mkdir.
  assert (E : mkPath (absolute p) (rev (rev (parts p))) = p)
    by (rewrite rev_involutive; now destruct p).
  assert (Hn : node_at (fs w) (resolve w p) = Some Dir).
  { unfold is_dir in Hd. now destruct (node_at (fs w) (resolve w p)) as [[|]|]. }
  pose proof (well_formed_parent _ _ _ W Hn) as Hp.
  assert (Em : os_mkdir p w = (Err (OSError FileExistsError), w)).
  { unfold os_mkdir. now rewrite Hp, Hn. }
  destruct (rev (parts p)) as [|c rest]; cbn [mkdir_parents]; rewrite E;
    unfold try_except; rewrite Em; run_step; now rewrite Hd.
Qed.

Lemma node_at_dirs_added t w w' k :
  dirs_added t w w' ->
  node_at (fs w') k = node_at (fs w) k \/ node_at (fs w') k = Some Dir.
Proof.
  intros [_ F]. destruct k as [|c k]; [now left|]. simpl.
  destruct (F (c :: k)) as [->|(_ & -> & _)]; auto.
Qed.

Lemma no_file_dirs_added t t' w w' :
  dirs_added t' w w' ->
  no_file_on_the_way (fs w) t -> no_file_on_the_way (fs w') t.
Proof.
  intros D H k c Hk.
  destruct (node_at_dirs_added _ _ _ k D) as [->| ->]; [now apply H | discriminate].
Qed.

Lemma mkdir_leaf_succeeds p w :
  well_formed (fs w) ->
  node_at (fs w) (removelast (resolve w p)) = Some Dir ->
  (forall c, node_at (fs w) (resolve w p) <> Some (File c)) ->
  exists w', mkdir_leaf p true w = (Ok tt, w') /\ well_formed (fs w').
Proof.
  intros W Hp Hf. unfold mkdir_leaf, try_except, os_mkdir. rewrite Hp.
  destruct (node_at (fs w) (resolve w p)) as [[c|]|] eqn:Et.
  - now destruct (Hf c).
  - run_step. unfold is_dir. rewrite Et. simpl. eauto.
  - eexists. split; [reflexivity|]. simpl.
    now apply well_formed_insert_dir.
Qed.

(** From a directory to start from (the root, or the working directory
    for a relative path), and with no file on the way, [mkdir] with
    [parents] and [exist_ok] returns normally. *)
Lemma mkdir_parents_succeeds a rp w :
  well_formed (fs w) ->
  node_at (fs w) (resolve w (mkPath a [])) = Some Dir ->
  no_file_on_the_way (fs w) (resolve w (mkPath a (rev rp))) ->
  exists w', mkdir_parents a rp true w = (Ok tt, w') /\ well_formed (fs w').
Proof.
  revert w. induction rp as [|c rest IH]; intros w W Hb Hf.
  - simpl in *. unfold try_except, os_mkdir.
    rewrite (well_formed_parent _ _ _ W Hb), Hb. run_step.
    unfold is_dir. rewrite Hb. simpl. eauto.
  - cbn [mkdir_parents]. unfold try_except.
    set (p := mkPath a (rev (c :: rest))) in *.
    assert (Rp : resolve w p = (resolve w (mkPath a (rev rest)) ++ [c])%list)
      by (unfold p; simpl rev; apply resolve_snoc).
    assert (Hpre : resolve w (mkPath a (rev rest)) `prefix_of` resolve w p)
      by (rewrite Rp; eexists; reflexivity).
    destruct (os_mkdir p w) as [r w1] eqn:E.
    destruct (os_mkdir_run _ _ _ _ E) as
      [(-> & -> & Hn & Hp)|[-> [[-> Hp]|[[-> [x Hp]]|[-> [Hp [n Hn]]]]]]].
    + eexists. split; [reflexivity|]. simpl.
      now apply well_formed_insert_dir.
    + destruct (IH w W Hb) as (w1 & E1 & W1).
      { intros k x Hk. apply Hf. now transitivity (resolve w (mkPath a (rev rest))). }
      unfold bind. rewrite E1.
      destruct (mkdir_parents_run _ _ _ _ _ _ E1) as [D1 I1].
      specialize (I1 eq_refl).
      assert (R1 : resolve w1 p = resolve w p)
        by (apply same_but_fs_resolve, D1).
      apply mkdir_leaf_succeeds; [assumption| |].
      * rewrite R1, Rp, removelast_last. unfold is_dir in I1.
        rewrite (same_but_fs_resolve _ _ _ (proj1 D1)) in I1.
        now destruct (node_at (fs w1) (resolve w (mkPath a (rev rest)))) as [[|]|].
      * intros x. rewrite R1.
        eapply no_file_dirs_added; eauto.
    + exfalso. apply (Hf (removelast (resolve w p)) x); [|exact Hp].
      rewrite Rp, removelast_last. eexists; reflexivity.
    + destruct n as [x|]; [now destruct (Hf (resolve w p) x)|].
      run_step. unfold is_dir. rewrite Hn. simpl. eauto.
Qed.

Lemma Path_mkdir_succeeds p w :
  well_formed (fs w) ->
  node_at (fs w) (resolve w (mkPath (absolute p) [])) = Some Dir ->
  no_file_on_the_way (fs w) (resolve w p) ->
  exists w', Path_mkdir p true true w = (Ok tt, w') /\ well_formed (fs w').
Proof.
  intros W Hb Hf. unfold Path_mkdir. apply mkdir_parents_succeeds; auto.
  rewrite rev_involutive. now destruct p.
Qed.

(** ** Names and paths *)

Lemma split_on_absent sep s : occurs sep s = false -> split_on sep s = [s].
Proof.
  induction s as [|c s IH]; simpl; [reflexivity|].
  intros H. apply orb_false_elim in H as [Hc Hs].
  rewrite Hc, (IH Hs). reflexivity.
Qed.

Lemma Path_of_string_plain s :
  plain_name s -> Path_of_string s = mkPath false [s].
Proof.
  intros (H0 & H1 & _ & Hs). unfold Path_of_string.
  rewrite (split_on_absent _ _ Hs). simpl. unfold kept_component.
  apply String.eqb_neq in H0, H1. rewrite H0, H1. simpl. f_equal.
  destruct s as [|c s]; [reflexivity|]. simpl in Hs.
  apply orb_false_elim in Hs as [Hc _]. simpl.
  change (Ascii.eqb c "/") with (Ascii.eqb c slash). now rewrite Hc.
Qed.

Lemma truediv_plain d s :
  plain_name s -> d // s = mkPath (absolute d) (parts d ++ [s]).
Proof. intros H. unfold truediv. now rewrite (Path_of_string_plain _ H). Qed.

Lemma plain_logs : plain_name LOGS_NAME.
Proof. repeat split; discriminate. Qed.

Lemma plain_info : plain_name "info.txt".
Proof. repeat split; discriminate. Qed.

Lemma resolve_truediv_plain w d s :
  plain_name s -> resolve w (d // s) = (resolve w d ++ [s])%list.
Proof.
  intros H. rewrite (truediv_plain _ _ H). destruct d as [a l].
  apply resolve_snoc.
Qed.

Lemma Path_name_truediv_plain d s : plain_name s -> Path_name (d // s) = s.
Proof.
  intros H. rewrite (truediv_plain _ _ H). unfold Path_name. simpl.
  apply last_last.
Qed.

(** ** [record_info] *)

Lemma record_info_unassigned info o w :
  _experiment_directory o = Unassigned ->
  record_info info (o, w) =
  (Err (AttributeError "_experiment_directory"), (o, w)).
Proof.
  intros H. unfold record_info, record_info_with. run_step. now rewrite H.
Qed.

Lemma record_info_run info o d w :
  _experiment_directory o = Assigned d ->
  record_info info (o, w) =
  match open_append (info_file d) w with
  | (Ok f, w1) =>
      (fst (file_write f (info +:+ newline) w1),
       (o, snd (file_write f (info +:+ newline) w1)))
  | (Err e, w1) => (Err e, (o, w1))
  end.
Proof.
  intros H. unfold record_info, record_info_with, info_file. run_step.
  rewrite H. simpl.
  destruct (open_append (d // "info.txt") w) as [[f|e] w1]; simpl;
    [|reflexivity].
  now destruct (file_write f (info +:+ newline) w1).
Qed.

Lemma open_append_errors p w e w' :
  open_append p w = (Err e, w') -> is_filesystem_error e = true /\ w' = w.
Proof.
  unfold open_append.
  destruct (node_at (fs w) (removelast (resolve w p))) as [[c|]|];
    [| destruct (node_at (fs w) (resolve w p)) as [[c|]|]
     | destruct (file_above (fs w) (removelast (resolve w p)))];
    intros [= <- <-]; auto.
Qed.

(** With the experiment directory in place and no directory where
    [info.txt] goes, [record_info] returns normally; the file then holds
    what it held (nothing, if it was not there) followed by the text and
    one newline, and no other node has changed. *)
Lemma record_info_appends info o d w :
  _experiment_directory o = Assigned d ->
  node_at (fs w) (resolve w d) = Some Dir ->
  node_at (fs w) (resolve w (info_file d)) <> Some Dir ->
  exists w',
    record_info info (o, w) = (Ok tt, (o, w')) /\
    read_text w' (info_file d) =
      Some (default "" (read_text w (info_file d)) +:+ info +:+ newline) /\
    same_but_fs w w' /\
    forall k, k <> resolve w (info_file d) -> fs w' !! k = fs w !! k.
Proof.
  intros Hd Hdir Hnd. rewrite (record_info_run _ _ _ _ Hd).
  unfold open_append, read_text in *.
  assert (R : resolve w (info_file d) = (resolve w d ++ ["info.txt"])%list)
    by apply resolve_truediv_plain, plain_info.
  assert (Hne : resolve w (info_file d) <> [])
    by (rewrite R; now destruct (resolve w d)).
  assert (Hpar : removelast (resolve w (info_file d)) = resolve w d)
    by (rewrite R; apply removelast_last).
  rewrite Hpar, Hdir. clear R Hpar.
  set (t := resolve w (info_file d)) in *.
  rewrite (node_at_lookup _ _ Hne) in *.
  destruct (fs w !! t) as [[c|]|] eqn:Et.
  - unfold file_write. rewrite Et. simpl. eexists. split; [reflexivity|].
    change (resolve (set_fs _ w) (info_file d)) with t.
    rewrite (node_at_lookup _ _ Hne). simpl. rewrite lookup_insert_eq.
    repeat split. intros k Hk. now rewrite lookup_insert_ne.
  - now destruct Hnd.
  - unfold file_write. simpl. rewrite lookup_insert_eq. simpl.
    eexists. split; [reflexivity|].
    change (resolve (set_fs _ (set_fs _ w)) (info_file d)) with t.
    rewrite (node_at_lookup _ _ Hne). simpl. rewrite lookup_insert_eq.
    repeat split. intros k Hk. now rewrite !lookup_insert_ne.
Qed.

(** ** The snapshot sequence *)

Lemma after_commands_nil w : after_commands w [] = w.
Proof. unfold after_commands. simpl. rewrite app_nil_r. now destruct w. Qed.

Lemma subprocess_run_exited w done args check capture st out :
  exits w done args st out ->
  subprocess_run args check ("/" +:+ join_slash (cwd w)) capture
    (after_commands w done) =
  (if check && negb (st =? 0)%Z
   then Err (CalledProcessError st args)
   else Ok (mkCompleted st (if capture then Some out else None)),
   after_commands w (done ++ [args])).
Proof.
  unfold exits, subprocess_run, after_commands, git_command. simpl.
  intros ->. rewrite map_app, app_assoc. simpl.
  now destruct (check && negb (st =? 0)%Z).
Qed.

Lemma snapshot_sequence_run msg o w :
  snapshot_sequence msg (o, w) =
  let dir := "/" +:+ join_slash (cwd w) in
  match subprocess_run stage_args true dir false w with
  | (Err e, w1) => (Err e, (o, w1))
  | (Ok _, w1) =>
      match subprocess_run probe_args false dir false w1 with
      | (Err e, w2) => (Err e, (o, w2))
      | (Ok _, w2) =>
          match subprocess_run (commit_args msg) true dir false w2 with
          | (Err e, w3) => (Err e, (o, w3))
          | (Ok _, w3) =>
              match subprocess_run read_head_args true dir true w3 with
              | (Err e, w4) => (Err e, (o, w4))
              | (Ok r, w4) =>
                  match stdout r with
                  | Some s =>
                      record_info ("commit_hash: " +:+ strip s) (o, w4)
                  | None => (Err (AttributeError "strip"), (o, w4))
                  end
              end
          end
      end
  end.
Proof.
  unfold snapshot_sequence, _record_commit_hash, os_getcwd.
  unfold stage_args, probe_args, commit_args, read_head_args.
  run_step.
  destruct (subprocess_run _ true _ false w) as [[r1|e] w1]; [|reflexivity].
  simpl.
  destruct (subprocess_run _ false _ false w1) as [[r2|e] w2]; [|reflexivity].
  simpl.
  destruct (subprocess_run _ true _ false w2) as [[r3|e] w3]; [|reflexivity].
  simpl.
  destruct (subprocess_run _ true _ true w3) as [[r4|e] w4]; [|reflexivity].
  simpl. destruct (stdout r4); reflexivity.
Qed.

Lemma open_append_same_but_fs p w r w' :
  open_append p w = (r, w') -> same_but_fs w w'.
Proof.
  unfold open_append.
  destruct (node_at (fs w) (removelast (resolve w p))) as [[c|]|];
    [| destruct (node_at (fs w) (resolve w p)) as [[c|]|]
     | destruct (file_above (fs w) (removelast (resolve w p)))];
    intros [= <- <-]; auto with fsdb.
Qed.

Lemma file_write_same_but_fs f s w r w' :
  file_write f s w = (r, w') -> same_but_fs w w'.
Proof.
  unfold file_write. destruct (fs w !! f) as [[c|]|]; intros [= <- <-];
    auto with fsdb.
Qed.

(** [record_info] changes the file system at most, and never the
    instance. *)
Lemma record_info_same_but_fs info o w r o' w' :
  record_info info (o, w) = (r, (o', w')) -> o' = o /\ same_but_fs w w'.
Proof.
  intros H. split; [eapply record_info_root_unchanged; eauto|].
  destruct (_experiment_directory o) as [|d] eqn:Hd.
  - rewrite (record_info_unassigned _ _ _ Hd) in H. injection H as _ _ <-.
    apply same_but_fs_refl.
  - rewrite (record_info_run _ _ _ _ Hd) in H.
    destruct (open_append (info_file d) w) as [[f|e] w1] eqn:Eo.
    + destruct (file_write f (info +:+ newline) w1) as [r2 w2] eqn:Ew.
      simpl in H. injection H as _ _ <-.
      eapply same_but_fs_trans.
      * eapply open_append_same_but_fs; eauto.
      * eapply file_write_same_but_fs; eauto.
    + injection H as _ _ <-. eapply open_append_same_but_fs; eauto.
Qed.

Lemma same_but_fs_trace w w' : same_but_fs w w' -> proc_trace w' = proc_trace w.
Proof. intros ->. reflexivity. Qed.

Lemma same_but_fs_logs w w' :
  same_but_fs w w' -> log_records w' = log_records w.
Proof. intros ->. reflexivity. Qed.

Lemma subprocess_run_world args check dir capture w r w' :
  subprocess_run args check dir capture w = (r, w') ->
  (w' = w /\ exists e, r = Err (OSError e)) \/
  w' = set_proc_trace (proc_trace w ++ [mkCommand args dir]) w.
Proof.
  unfold subprocess_run. destruct (proc_oracle w _ _) as [st out|e].
  - destruct (check && negb (st =? 0)%Z); intros [= <- <-]; now right.
  - intros [= <- <-]. left. eauto.
Qed.

(** Whatever the outcome of the sequence, the commands it has run are
    the first few of its four commands, in order; the instance is the
    same. *)
Lemma snapshot_sequence_trace msg o w r o' w' :
  snapshot_sequence msg (o, w) = (r, (o', w')) ->
  o' = o /\
  exists n, proc_trace w' =
            (proc_trace w ++
             map (git_command w) (firstn n (sequence_commands msg)))%list.
Proof.
  assert (Done : forall n l, l = map (git_command w)
                                 (firstn n (sequence_commands msg)) ->
            forall w0, proc_trace w0 = (proc_trace w ++ l)%list ->
            exists n, proc_trace w0 =
              (proc_trace w ++
               map (git_command w) (firstn n (sequence_commands msg)))%list).
  { intros n l -> w0 ->. now exists n. }
  rewrite snapshot_sequence_run. cbv zeta.
  destruct (subprocess_run stage_args _ _ _ w) as [r1 w1] eqn:E1.
  apply subprocess_run_world in E1 as [[-> [e ->]]| ->].
  { intros [= <- <- <-]. split; [reflexivity|].
    apply (Done 0 [] eq_refl). now rewrite app_nil_r. }
  assert (T1 : forall w0, proc_trace w0 =
            proc_trace (set_proc_trace
              (proc_trace w ++ [mkCommand stage_args ("/" +:+ join_slash (cwd w))]) w) ->
            exists n, proc_trace w0 =
              (proc_trace w ++
               map (git_command w) (firstn n (sequence_commands msg)))%list).
  { intros w0 ->. now apply (Done 1 _ eq_refl). }
  destruct r1 as [c1|e]; [|intros [= <- <- <-]; split; auto].
  match goal with |- context [subprocess_run probe_args _ _ _ ?w1] =>
    set (w1' := w1) in * end.
  destruct (subprocess_run probe_args _ _ _ w1') as [r2 w2] eqn:E2.
  apply subprocess_run_world in E2 as [[-> [e ->]]| ->].
  { intros [= <- <- <-]. split; auto. }
  assert (T2 : forall w0, proc_trace w0 =
            proc_trace (set_proc_trace
              (proc_trace w1' ++ [mkCommand probe_args ("/" +:+ join_slash (cwd w))]) w1') ->
            exists n, proc_trace w0 =
              (proc_trace w ++
               map (git_command w) (firstn n (sequence_commands msg)))%list).
  { intros w0 ->. apply (Done 2 _ eq_refl). simpl.
    now rewrite <- app_assoc. }
  destruct r2 as [c2|e]; [|intros [= <- <- <-]; split; auto].
  match goal with |- context [subprocess_run (commit_args msg) _ _ _ ?w2] =>
    set (w2' := w2) in * end.
  destruct (subprocess_run (commit_args msg) _ _ _ w2') as [r3 w3] eqn:E3.
  apply subprocess_run_world in E3 as [[-> [e ->]]| ->].
  { intros [= <- <- <-]. split; auto. }
  assert (T3 : forall w0, proc_trace w0 =
            proc_trace (set_proc_trace
              (proc_trace w2' ++ [mkCommand (commit_args msg) ("/" +:+ join_slash (cwd w))]) w2') ->
            exists n, proc_trace w0 =
              (proc_trace w ++
               map (git_command w) (firstn n (sequence_commands msg)))%list).
  { intros w0 ->. apply (Done 3 _ eq_refl). simpl.
    now rewrite <- !app_assoc. }
  destruct r3 as [c3|e]; [|intros [= <- <- <-]; split; auto].
  match goal with |- context [subprocess_run read_head_args _ _ _ ?w3] =>
    set (w3' := w3) in * end.
  destruct (subprocess_run read_head_args _ _ _ w3') as [r4 w4] eqn:E4.
  apply subprocess_run_world in E4 as [[-> [e ->]]| ->].
  { intros [= <- <- <-]. split; auto. }
  assert (T4 : forall w0, proc_trace w0 =
            proc_trace (set_proc_trace
              (proc_trace w3' ++ [mkCommand read_head_args ("/" +:+ join_slash (cwd w))]) w3') ->
            exists n, proc_trace w0 =
              (proc_trace w ++
               map (git_command w) (firstn n (sequence_commands msg)))%list).
  { intros w0 ->. apply (Done 4 _ eq_refl). simpl.
    now rewrite <- !app_assoc. }
  destruct r4 as [c4|e]; [|intros [= <- <- <-]; split; auto].
  destruct (stdout c4); [|intros [= <- <- <-]; split; auto].
  intros H. apply record_info_same_but_fs in H as [-> S].
  split; [reflexivity|]. apply T4. now apply same_but_fs_trace.
Qed.

Lemma subprocess_run_at w0 w done args check capture st out :
  w0 = after_commands w done ->
  exits w done args st out ->
  subprocess_run args check ("/" +:+ join_slash (cwd w)) capture w0 =
  (if check && negb (st =? 0)%Z
   then Err (CalledProcessError st args)
   else Ok (mkCompleted st (if capture then Some out else None)),
   after_commands w (done ++ [args])).
Proof. intros ->. apply subprocess_run_exited. Qed.

Lemma nonzero_status (st : Z) : st <> 0%Z -> negb (st =? 0)%Z = true.
Proof. intros H. apply negb_true_iff. now apply Z.eqb_neq. Qed.

(** A failing step stops the sequence there and raises its
    [CalledProcessError]; nothing is written. *)
Lemma snapshot_sequence_failure msg o w e :
  snapshot_fails w msg e ->
  exists n, snapshot_sequence msg (o, w) =
            (Err e, (o, after_commands w (firstn n (sequence_commands msg)))).
Proof.
  intros H. rewrite snapshot_sequence_run. cbv zeta.
  destruct H as [st out H1 Hst
                |out1 st2 out2 st out H1 H2 H3 Hst
                |out1 st2 out2 out3 st out H1 H2 H3 H4 Hst].
  - rewrite (subprocess_run_at w w [] _ _ _ _ _
               (eq_sym (after_commands_nil w)) H1).
    rewrite (nonzero_status _ Hst). now exists 1.
  - rewrite (subprocess_run_at w w [] _ _ _ _ _
               (eq_sym (after_commands_nil w)) H1).
    cbn [andb negb Z.eqb app].
    rewrite (subprocess_run_at _ w _ _ _ _ _ _ eq_refl H2).
    cbn [andb negb Z.eqb app].
    rewrite (subprocess_run_at _ w _ _ _ _ _ _ eq_refl H3).
    rewrite (nonzero_status _ Hst). now exists 3.
  - rewrite (subprocess_run_at w w [] _ _ _ _ _
               (eq_sym (after_commands_nil w)) H1).
    cbn [andb negb Z.eqb app].
    rewrite (subprocess_run_at _ w _ _ _ _ _ _ eq_refl H2).
    cbn [andb negb Z.eqb app].
    rewrite (subprocess_run_at _ w _ _ _ _ _ _ eq_refl H3).
    cbn [andb negb Z.eqb app].
    rewrite (subprocess_run_at _ w _ _ _ _ _ _ eq_refl H4).
    rewrite (nonzero_status _ Hst). now exists 4.
Qed.

(** When the three checked steps succeed, whatever the status of the
    probe, the sequence ends by recording the trimmed output of
    [rev-parse]. *)
Lemma snapshot_sequence_success msg o w out1 st2 out2 out3 out :
  exits w [] stage_args 0 out1 ->
  exits w [stage_args] probe_args st2 out2 ->
  exits w [stage_args; probe_args] (commit_args msg) 0 out3 ->
  exits w [stage_args; probe_args; commit_args msg] read_head_args 0 out ->
  snapshot_sequence msg (o, w) =
  record_info ("commit_hash: " +:+ strip out)
    (o, after_commands w (sequence_commands msg)).
Proof.
  intros H1 H2 H3 H4. rewrite snapshot_sequence_run. cbv zeta.
  rewrite (subprocess_run_at w w [] _ _ _ _ _
             (eq_sym (after_commands_nil w)) H1).
  cbn [andb negb Z.eqb app].
  rewrite (subprocess_run_at _ w _ _ _ _ _ _ eq_refl H2).
  cbn [andb negb Z.eqb app].
  rewrite (subprocess_run_at _ w _ _ _ _ _ _ eq_refl H3).
  cbn [andb negb Z.eqb app].
  rewrite (subprocess_run_at _ w _ _ _ _ _ _ eq_refl H4).
  reflexivity.
Qed.

Lemma after_commands_same_fs w done : fs (after_commands w done) = fs w.
Proof. reflexivity. Qed.

(** [_do_auto_commit] on a failing sequence: the error is handled, one
    record at level [ERROR] carrying the exception is logged, and the
    file system is as it was. *)
Lemma do_auto_commit_failure msg push o w e :
  snapshot_fails w msg e ->
  exists w', _do_auto_commit msg push (o, w) = (Ok tt, (o, w')) /\
             fs w' = fs w /\ cwd w' = cwd w /\
             log_records w' =
               (log_records w ++
                [mkLogRecord (_log o) ERROR "Git command failed: " (Some e)])%list.
Proof.
  intros H. pose proof H as H'.
  apply (snapshot_sequence_failure msg o) in H as [n E].
  unfold _do_auto_commit, try_except. rewrite E.
  destruct H'; run_step; eexists; (split; [reflexivity|]); simpl; auto.
Qed.

Lemma do_auto_commit_instance msg push o w r o' w' :
  _do_auto_commit msg push (o, w) = (r, (o', w')) -> o' = o.
Proof.
  unfold _do_auto_commit, try_except.
  destruct (snapshot_sequence msg (o, w)) as [[[]|e] [o1 w1]] eqn:E;
    apply snapshot_sequence_trace in E as [-> _].
  - now intros [= _ <- _].
  - destruct e; now intros [= _ <- _].
Qed.

(** ** Initialization with a failing snapshot *)

Lemma set_auto_commit_git_id o :
  set_auto_commit_git (_auto_commit_git o) o = o.
Proof. now destruct o. Qed.

Lemma snapshot_fails_log_info l m w msg e :
  snapshot_fails w msg e -> snapshot_fails (log_info l m w) msg e.
Proof.
  intros H. destruct H; [eapply stage_fails | eapply commit_fails
                        | eapply read_head_fails]; eauto.
Qed.

Lemma read_text_dirs_added t w w' p :
  dirs_added t w w' -> read_text w' p = read_text w p.
Proof.
  intros [S F]. unfold read_text. rewrite (same_but_fs_resolve _ _ _ S).
  destruct (resolve w p) as [|c k]; [reflexivity|]. simpl.
  destruct (F (c :: k)) as [->|(-> & -> & _)]; reflexivity.
Qed.

(** Initialization without the snapshot: what it returns and leaves. *)
Lemma initialize_without_commit o w r o1 w1 :
  _auto_commit_git o = false ->
  initialize_experiment (o, w) = (r, (o1, w1)) ->
  r = Ok tt ->
  exists id w0,
    generate (_id_generator o) (_group_dir o)
      (log_info (_log o) (opening_message o) w) = (Ok id, w0) /\
    Path_mkdir (_group_dir o // id // LOGS_NAME) true true w0 = (Ok tt, w1) /\
    o1 = with_directories id o.
Proof.
  intros Ha. rewrite initialize_experiment_run, Ha.
  destruct (generate _ _ _) as [[id|e] w0]; cbv zeta.
  - destruct (Path_mkdir _ true true w0) as [[[]|e] w2] eqn:Em.
    + intros [= <- <- <-] _. exists id, w0. auto.
    + intros [= <- _ _]. discriminate.
  - intros [= <- _ _]. discriminate.
Qed.

(** C1 (as the code has it): with auto-commit enabled, take a call in
    which the directories get made (the same call with auto-commit
    disabled returns normally, leaving [w1]) and in which the stage,
    commit or identifier-read command of the snapshot exits with a
    non-zero status.  Then [initialize_experiment] returns
    normally; the logs directory exists; the failure has been logged,
    after the announcement of the commit, as one record at level [ERROR]
    carrying the exception; and the file system is exactly as the
    directory creation left it, so nothing has been appended to
    [info.txt].  With the default generator every text file reads as it
    did before the call. *)
Theorem failed_snapshot_is_caught_and_logged o w o1 w1 e :
  _auto_commit_git o = true ->
  initialize_experiment (set_auto_commit_git false o, w) = (Ok tt, (o1, w1)) ->
  snapshot_fails w1 (commit_message o) e ->
  exists w2 l,
    initialize_experiment (o, w) =
      (Ok tt, (set_auto_commit_git true o1, w2)) /\
    _logs_dir o1 = Assigned l /\ is_dir w2 l = true /\
    fs w2 = fs w1 /\
    (forall d, _experiment_directory o1 = Assigned d ->
               read_text w2 (info_file d) = read_text w1 (info_file d)) /\
    (_id_generator o = DefaultGenerator ->
     forall p, read_text w2 p = read_text w p) /\
    log_records w2 =
      (log_records w1 ++
       [mkLogRecord (_log o) INFO "auto-creating experiment commit..." None;
        mkLogRecord (_log o) ERROR "Git command failed: " (Some e)])%list.
Proof.
  intros Ha Hi Hf.
  apply initialize_without_commit in Hi as (id & w0 & Hg & Hm & ->);
    [|reflexivity|reflexivity].
  cbn [set_auto_commit_git _id_generator _group_dir _log] in Hg, Hm.
  change (opening_message (set_auto_commit_git false o))
    with (opening_message o) in Hg.
  rewrite initialize_experiment_run, Hg. cbv zeta. rewrite Hm, Ha.
  destruct (do_auto_commit_failure (commit_message o) false
              (with_directories id o) _ _
              (snapshot_fails_log_info (_log o)
                 "auto-creating experiment commit..." _ _ _ Hf))
    as (w2 & E & Hfs & Hcwd & Hlog).
  rewrite E. exists w2, (_group_dir o // id // LOGS_NAME).
  destruct (Path_mkdir_parents_run _ _ _ _ Hm) as [D I].
  assert (R : forall p, read_text w2 p = read_text w1 p).
  { intros p. unfold read_text, resolve. now rewrite Hfs, Hcwd. }
  split; [|split; [|split; [|split; [|split; [|split]]]]].
  - f_equal. f_equal. destruct o. simpl in *. now subst.
  - reflexivity.
  - specialize (I eq_refl). unfold is_dir, resolve in *.
    now rewrite Hfs, Hcwd.
  - exact Hfs.
  - intros d _. apply R.
  - intros Hgen p. rewrite R, (read_text_dirs_added _ _ _ _ D).
    rewrite Hgen in Hg. simpl in Hg. now injection Hg as _ <-.
  - rewrite Hlog. simpl. now rewrite <- app_assoc.
Qed.

(** ** Trimming *)

Lemma append_cons c s t : String c s +:+ t = String c (s +:+ t).
Proof. reflexivity. Qed.

Lemma append_empty_l t : "" +:+ t = t.
Proof. reflexivity. Qed.

Lemma append_empty_r s : s +:+ "" = s.
Proof. induction s as [|c s IH]; [reflexivity|]. now rewrite append_cons, IH. Qed.

Lemma lstrip_spec s :
  exists l, s = l +:+ lstrip s /\ all_space l = true /\
            head_is_space (lstrip s) = false.
Proof.
  induction s as [|c s (l & E & A & H)].
  - now exists "".
  - simpl. destruct (py_isspace c) eqn:Ec.
    + exists (String c l). rewrite append_cons, <- E. simpl. now rewrite Ec, A.
    + exists "". simpl. now rewrite Ec.
Qed.

Lemma rstrip_spec s :
  exists r, s = rstrip s +:+ r /\ all_space r = true /\
            last_is_space (rstrip s) = false /\
            (head_is_space s = false -> head_is_space (rstrip s) = false).
Proof.
  induction s as [|c s (r & E & A & L & H)].
  - now exists "".
  - simpl. destruct (rstrip s) as [|c' t] eqn:Er.
    + destruct (py_isspace c) eqn:Ec.
      * exists (String c r). rewrite append_empty_l in *. subst r.
        simpl. now rewrite Ec, A.
      * exists r. rewrite append_cons, <- E. simpl. now rewrite Ec.
    + exists r. rewrite append_cons, <- E. repeat split; auto.
Qed.

(** [strip] removes a run of whitespace at each end and leaves a text
    that neither starts nor ends with whitespace. *)
Lemma strip_spec s :
  exists l r, s = l +:+ strip s +:+ r /\
              all_space l = true /\ all_space r = true /\
              head_is_space (strip s) = false /\
              last_is_space (strip s) = false.
Proof.
  destruct (lstrip_spec s) as (l & El & Al & Hl).
  destruct (rstrip_spec (lstrip s)) as (r & Er & Ar & Lr & Hr).
  exists l, r. unfold strip. rewrite <- Er. repeat split; auto.
Qed.

Lemma do_auto_commit_trace msg push o w r o' w' :
  _do_auto_commit msg push (o, w) = (r, (o', w')) ->
  exists n, proc_trace w' =
            (proc_trace w ++
             map (git_command w) (firstn n (sequence_commands msg)))%list.
Proof.
  unfold _do_auto_commit, try_except.
  destruct (snapshot_sequence msg (o, w)) as [[[]|e] [o1 w1]] eqn:E;
    apply snapshot_sequence_trace in E as [-> [n E]]; intros H; exists n.
  - now injection H as _ _ <-.
  - destruct e; now injection H as _ _ <-.
Qed.

(** C2: the snapshot sequence, step by step.  (1) A failing [git add .]
    raises out of the sequence and no other command is run.  (2) After
    a successful stage the probe [git diff --staged --quiet] is run and
    its status is ignored; a failing [git commit -m msg] raises out of
    the sequence, after exactly these three commands.  (3) When stage
    and commit succeed, [git rev-parse HEAD] is run and, if it
    succeeds, the four commands have run in order and the line
    [commit_hash: <output, trimmed>] is appended to [info.txt], no other
    node being touched.  (4) The trimmed text is the output without a
    run of whitespace at each end.  (5) In every run, also through
    [_do_auto_commit] with either value of [push], the commands run are
    the first few of these four in order, and (6) none of them is a
    [git push]. *)
Theorem snapshot_sequence_steps msg o w :
  (forall st out,
     exits w [] stage_args st out -> st <> 0%Z ->
     snapshot_sequence msg (o, w) =
     (Err (CalledProcessError st stage_args),
      (o, after_commands w [stage_args]))) /\
  (forall out1 st2 out2 st out,
     exits w [] stage_args 0 out1 ->
     exits w [stage_args] probe_args st2 out2 ->
     exits w [stage_args; probe_args] (commit_args msg) st out ->
     st <> 0%Z ->
     snapshot_sequence msg (o, w) =
     (Err (CalledProcessError st (commit_args msg)),
      (o, after_commands w [stage_args; probe_args; commit_args msg]))) /\
  (forall out1 st2 out2 out3 out d,
     exits w [] stage_args 0 out1 ->
     exits w [stage_args] probe_args st2 out2 ->
     exits w [stage_args; probe_args] (commit_args msg) 0 out3 ->
     exits w [stage_args; probe_args; commit_args msg] read_head_args 0 out ->
     _experiment_directory o = Assigned d ->
     node_at (fs w) (resolve w d) = Some Dir ->
     node_at (fs w) (resolve w (info_file d)) <> Some Dir ->
     exists w',
       snapshot_sequence msg (o, w) = (Ok tt, (o, w')) /\
       proc_trace w' =
         (proc_trace w ++ map (git_command w) (sequence_commands msg))%list /\
       read_text w' (info_file d) =
         Some (default "" (read_text w (info_file d))
               +:+ ("commit_hash: " +:+ strip out) +:+ newline) /\
       forall k, k <> resolve w (info_file d) -> fs w' !! k = fs w !! k) /\
  (forall out, exists l r,
     out = l +:+ strip out +:+ r /\
     all_space l = true /\ all_space r = true /\
     head_is_space (strip out) = false /\
     last_is_space (strip out) = false) /\
  (forall push r o' w',
     _do_auto_commit msg push (o, w) = (r, (o', w')) ->
     exists n, proc_trace w' =
               (proc_trace w ++
                map (git_command w) (firstn n (sequence_commands msg)))%list) /\
  forallb (fun a => negb (is_push (git_command w a))) (sequence_commands msg)
  = true.
Proof.
  split; [|split; [|split; [|split; [|split]]]].
  - intros st out H1 Hst. rewrite snapshot_sequence_run. cbv zeta.
    rewrite (subprocess_run_at w w [] _ _ _ _ _
               (eq_sym (after_commands_nil w)) H1).
    now rewrite (nonzero_status _ Hst).
  - intros out1 st2 out2 st out H1 H2 H3 Hst.
    rewrite snapshot_sequence_run. cbv zeta.
    rewrite (subprocess_run_at w w [] _ _ _ _ _
               (eq_sym (after_commands_nil w)) H1).
    cbn [andb negb Z.eqb app].
    rewrite (subprocess_run_at _ w _ _ _ _ _ _ eq_refl H2).
    cbn [andb negb Z.eqb app].
    rewrite (subprocess_run_at _ w _ _ _ _ _ _ eq_refl H3).
    now rewrite (nonzero_status _ Hst).
  - intros out1 st2 out2 out3 out d H1 H2 H3 H4 Hd Hdir Hnd.
    rewrite (snapshot_sequence_success _ _ _ _ _ _ _ _ H1 H2 H3 H4).
    destruct (record_info_appends ("commit_hash: " +:+ strip out) o d
                (after_commands w (sequence_commands msg)) Hd Hdir Hnd)
      as (w' & E & Ht & S & F).
    exists w'. split; [exact E|]. split; [|split; [exact Ht | exact F]].
    now rewrite (same_but_fs_trace _ _ S).
  - intros out. apply strip_spec.
  - intros push r o' w'. apply do_auto_commit_trace.
  - reflexivity.
Qed.

(** ** Lines of the record log *)

Lemma append_assoc s t u : (s +:+ t) +:+ u = s +:+ t +:+ u.
Proof.
  induction s as [|c s IH]; [reflexivity|]. now rewrite !append_cons, IH.
Qed.




(** ** [record_info], the accessors and the constructor *)

(** C8 (as the code has it): before [initialize_experiment],
    [record_info] fails with [AttributeError] on the attribute
    [_experiment_directory], which reaches the caller and is not a
    file-system error; nothing is written.  Once the attribute is
    assigned, an error raised by opening [info.txt] reaches the caller
    as it is; and whatever the two calls [open] and [write] do, the
    exception that either of them raises is the one that [record_info]
    raises, in the world that the call has left. *)
Theorem record_info_errors_reach_the_caller info o w :
  (forall root name group auto outputs logging gen w0,
     Experiment_init root name group auto outputs logging gen w0 = (Ok o, w) ->
     record_info info (o, w) =
       (Err (AttributeError "_experiment_directory"), (o, w)) /\
     is_filesystem_error (AttributeError "_experiment_directory") = false) /\
  (forall d e w',
     _experiment_directory o = Assigned d ->
     open_append (info_file d) w = (Err e, w') ->
     record_info info (o, w) = (Err e, (o, w'))) /\
  (forall open_a write d e w',
     _experiment_directory o = Assigned d ->
     open_a (info_file d) w = (Err e, w') ->
     record_info_with open_a write info (o, w) = (Err e, (o, w'))) /\
  (forall open_a write d f w1 e w',
     _experiment_directory o = Assigned d ->
     open_a (info_file d) w = (Ok f, w1) ->
     write f (info +:+ newline) w1 = (Err e, w') ->
     record_info_with open_a write info (o, w) = (Err e, (o, w'))).
Proof.
  split; [|split; [|split]].
  - intros root name group auto outputs logging gen w0 H.
    apply Experiment_init_Ok in H as (_ & _ & H & _).
    split; [now apply record_info_unassigned | reflexivity].
  - intros d e w' Hd Ho. now rewrite (record_info_run _ _ _ _ Hd), Ho.
  - intros open_a write d e w' Hd Ho.
    unfold record_info_with. run_step. rewrite Hd. simpl.
    fold (info_file d). now rewrite Ho.
  - intros open_a write d f w1 e w' Hd Ho Hw.
    unfold record_info_with. run_step. rewrite Hd. simpl.
    fold (info_file d). rewrite Ho. simpl. now rewrite Hw.
Qed.

Lemma initialize_experiment_root o w r o' w' :
  initialize_experiment (o, w) = (r, (o', w')) ->
  _experiments_root_dir o' = _experiments_root_dir o.
Proof.
  rewrite initialize_experiment_run.
  destruct (generate _ _ _) as [[id|e] w0]; cbv zeta.
  - destruct (Path_mkdir _ true true w0) as [[[]|e] w2].
    + destruct (_auto_commit_git o).
      * intros H. apply do_auto_commit_instance in H as ->. reflexivity.
      * now intros [= _ <- _].
    + now intros [= _ <- _].
  - now intros [= _ <- _].
Qed.

(** C10: on an instance as the constructor returns it, [outputs_path]
    returns [None], [logs_path] raises [AttributeError] on [_logs_dir],
    and [experiment_root] returns the root path that was configured.
    From any state, [initialize_experiment] and [record_info] leave the
    value of [experiment_root] as it was, whatever their outcome. *)
Theorem accessors_before_initialize
    root name group auto outputs logging gen w0 o w :
  Experiment_init root name group auto outputs logging gen w0 = (Ok o, w) ->
  outputs_path (o, w) = (Ok None, (o, w)) /\
  logs_path (o, w) = (Err (AttributeError "_logs_dir"), (o, w)) /\
  experiment_root (o, w) = (Ok (Path_of_string root), (o, w)) /\
  (forall o1 w1 r o2 w2,
     initialize_experiment (o1, w1) = (r, (o2, w2)) ->
     fst (experiment_root (o2, w2)) = fst (experiment_root (o1, w1))) /\
  (forall info o1 w1 r o2 w2,
     record_info info (o1, w1) = (r, (o2, w2)) ->
     fst (experiment_root (o2, w2)) = fst (experiment_root (o1, w1))).
Proof.
  intros H. apply Experiment_init_Ok in H as (Hr & Ho & _ & Hl & _).
  split; [|split; [|split; [|split]]].
  - unfold outputs_path. run_step. now rewrite Ho.
  - unfold logs_path. run_step. now rewrite Hl.
  - unfold experiment_root. run_step. now rewrite Hr.
  - intros o1 w1 r o2 w2 Hi. unfold experiment_root. run_step. f_equal.
    eapply initialize_experiment_root; eauto.
  - intros info o1 w1 r o2 w2 Hi. unfold experiment_root. run_step. f_equal.
    apply record_info_root_unchanged in Hi. now subst.
Qed.

(** ** The default identifier *)

Lemma child_of_Some d k c : child_of d k = Some c <-> k = (d ++ [c])%list.
Proof.
  revert k. induction d as [|x d IH]; intros k.
  - destruct k as [|y [|z k]]; simpl; split; intros H; try discriminate;
      congruence.
  - destruct k as [|y k]; simpl; [split; discriminate|].
    destruct (decide (x = y)) as [->|Hne].
    + rewrite IH. split; congruence.
    + split; [discriminate | congruence].
Qed.

Lemma NoDup_omap_inj {A B} (f : A -> option B) (l : list A) :
  NoDup l ->
  (forall x y b, x ∈ l -> y ∈ l -> f x = Some b -> f y = Some b -> x = y) ->
  NoDup (omap f l).
Proof.
  induction 1 as [|x l Hx Hl IH]; intros Hinj; simpl.
  - constructor.
  - assert (IH' : NoDup (omap f l)).
    { apply IH. intros a b c Ha Hb. apply Hinj; now right. }
    destruct (f x) as [b|] eqn:Ex; [|exact IH'].
    constructor; [|exact IH'].
    rewrite list_elem_of_omap. intros (y & Hy & Ey).
    apply Hx. rewrite (Hinj x y b); auto; [left | now right].
Qed.

(** The entries of a directory are the names under which a node sits
    immediately below it, each once. *)
Lemma elem_of_entries (f : filesystem) d c :
  c ∈ entries f d <-> is_Some (f !! (d ++ [c])%list).
Proof.
  unfold entries. rewrite list_elem_of_omap. split.
  - intros ([k n] & Hk & Hc). simpl in Hc. apply child_of_Some in Hc as ->.
    apply elem_of_map_to_list in Hk. eauto.
  - intros [n Hn]. exists ((d ++ [c])%list, n). split.
    + now apply elem_of_map_to_list.
    + simpl. now apply child_of_Some.
Qed.

Lemma NoDup_entries (f : filesystem) d : NoDup (entries f d).
Proof.
  unfold entries. apply NoDup_omap_inj; [apply NoDup_map_to_list|].
  intros [k1 n1] [k2 n2] c H1 H2 E1 E2. simpl in *.
  apply child_of_Some in E1, E2. subst.
  apply elem_of_map_to_list in H1, H2. congruence.
Qed.

(** C3: the default generator counts the nodes immediately below the
    group directory (each name once, nothing deeper), takes 0 when there
    is no such directory, and returns the count, an underscore and the
    clock reading formatted to the second; it changes nothing.  So the
    identifier is [0_<timestamp>] without a group directory or with an
    empty one, and [3_<timestamp>] with three entries. *)
Theorem default_identifier_counts_entries o w :
  let g := resolve w (_group_dir o) in
  let stamp := strftime (now w) in
  (forall c, c ∈ entries (fs w) g <-> is_Some (fs w !! (g ++ [c])%list)) /\
  NoDup (entries (fs w) g) /\
  (node_at (fs w) g = Some Dir ->
   _default_id_generator (o, w) =
   (Ok (str_of_nat (length (entries (fs w) g)) +:+ "_" +:+ stamp), (o, w))) /\
  (node_at (fs w) g = None ->
   _default_id_generator (o, w) = (Ok ("0_" +:+ stamp), (o, w))) /\
  (node_at (fs w) g = Some Dir -> entries (fs w) g = [] ->
   _default_id_generator (o, w) = (Ok ("0_" +:+ stamp), (o, w))) /\
  (node_at (fs w) g = Some Dir -> length (entries (fs w) g) = 3 ->
   _default_id_generator (o, w) = (Ok ("3_" +:+ stamp), (o, w))) /\
  stamp =
    str_of_nat (N.to_nat (year (now w))) +:+ "-" +:+ pad2 (month (now w))
    +:+ "-" +:+ pad2 (day (now w)) +:+ "_" +:+ pad2 (hour (now w))
    +:+ "-" +:+ pad2 (minute (now w)) +:+ "-" +:+ pad2 (second (now w)).
Proof.
  intros g stamp. rewrite default_id_generator_run. unfold default_id.
  fold g. fold stamp.
  split; [apply elem_of_entries|]. split; [apply NoDup_entries|].
  split; [now intros ->|]. split; [now intros ->|].
  split; [now intros -> ->|]. split; [now intros -> ->|]. reflexivity.
Qed.

(** ** The logs directory *)

Lemma initialize_experiment_Ok o w o' w' :
  initialize_experiment (o, w) = (Ok tt, (o', w')) ->
  exists id w0 w1,
    generate (_id_generator o) (_group_dir o)
      (log_info (_log o) (opening_message o) w) = (Ok id, w0) /\
    Path_mkdir (_group_dir o // id // LOGS_NAME) true true w0 = (Ok tt, w1) /\
    o' = with_directories id o /\
    (if _auto_commit_git o
     then _do_auto_commit (commit_message o) false
            (with_directories id o,
             log_info (_log o) "auto-creating experiment commit..." w1)
          = (Ok tt, (o', w'))
     else w' = w1).
Proof.
  rewrite initialize_experiment_run.
  destruct (generate _ _ _) as [[id|e] w0]; cbv zeta; [|discriminate].
  destruct (Path_mkdir _ true true w0) as [[[]|e] w1] eqn:Em; [|discriminate].
  intros H. exists id, w0, w1. split; [reflexivity|]. split; [exact Em|].
  destruct (_auto_commit_git o).
  - pose proof (do_auto_commit_instance _ _ _ _ _ _ _ H) as ->. auto.
  - injection H as <- <-. auto.
Qed.

Lemma same_dirs_refl w : same_dirs w w.
Proof. now split. Qed.

Lemma same_dirs_trans w1 w2 w3 :
  same_dirs w1 w2 -> same_dirs w2 w3 -> same_dirs w1 w3.
Proof.
  intros [C1 D1] [C2 D2]. split; [congruence|].
  intros k. now rewrite D2, D1.
Qed.

Lemma same_dirs_eq w w' : fs w' = fs w -> cwd w' = cwd w -> same_dirs w w'.
Proof. intros E C. split; [exact C|]. now rewrite E. Qed.

Lemma is_dir_same_dirs w w' p : same_dirs w w' -> is_dir w' p = is_dir w p.
Proof.
  intros [C D]. unfold is_dir, resolve. rewrite C.
  destruct (if absolute p then parts p else (cwd w ++ parts p)%list)
    as [|c k]; [reflexivity|]. simpl.
  specialize (D (c :: k)).
  destruct (fs w' !! (c :: k)) as [[x|]|], (fs w !! (c :: k)) as [[y|]|];
    try reflexivity; destruct D as [D1 D2];
    first [now specialize (D1 eq_refl) | now specialize (D2 eq_refl)].
Qed.

Lemma open_append_same_dirs p w r w' :
  open_append p w = (r, w') -> same_dirs w w'.
Proof.
  unfold open_append.
  destruct (node_at (fs w) (removelast (resolve w p))) as [[c|]|];
    [| destruct (node_at (fs w) (resolve w p)) as [[c|]|] eqn:Et
     | destruct (file_above (fs w) (removelast (resolve w p)))];
    intros [= <- <-]; try apply same_dirs_refl.
  split; [reflexivity|]. intros k. simpl.
  assert (Hne : resolve w p <> []) by (eapply node_at_None_nonempty; eauto).
  rewrite (node_at_lookup _ _ Hne) in Et.
  rewrite lookup_insert. destruct (decide (resolve w p = k)) as [<-|].
  - rewrite Et. split; discriminate.
  - reflexivity.
Qed.

Lemma file_write_same_dirs f s w r w' :
  file_write f s w = (r, w') -> same_dirs w w'.
Proof.
  unfold file_write. destruct (fs w !! f) as [[c|]|] eqn:Ef;
    intros [= <- <-]; try apply same_dirs_refl.
  split; [reflexivity|]. intros k. simpl. rewrite lookup_insert.
  destruct (decide (f = k)) as [<-|]; [|reflexivity].
  rewrite Ef. split; discriminate.
Qed.

Lemma record_info_same_dirs info o w r o' w' :
  record_info info (o, w) = (r, (o', w')) -> same_dirs w w'.
Proof.
  intros H. destruct (_experiment_directory o) as [|d] eqn:Hd.
  - rewrite (record_info_unassigned _ _ _ Hd) in H. injection H as _ _ <-.
    apply same_dirs_refl.
  - rewrite (record_info_run _ _ _ _ Hd) in H.
    destruct (open_append (info_file d) w) as [[f|e] w1] eqn:Eo.
    + destruct (file_write f (info +:+ newline) w1) as [r2 w2] eqn:Ew.
      simpl in H. injection H as _ _ <-.
      eapply same_dirs_trans.
      * eapply open_append_same_dirs; eauto.
      * eapply file_write_same_dirs; eauto.
    + injection H as _ _ <-. eapply open_append_same_dirs; eauto.
Qed.

Lemma subprocess_run_same_dirs args check dir capture w r w' :
  subprocess_run args check dir capture w = (r, w') -> same_dirs w w'.
Proof.
  intros H. apply subprocess_run_world in H as [[-> _]| ->];
    now apply same_dirs_eq.
Qed.

Lemma snapshot_sequence_same_dirs msg o w r o' w' :
  snapshot_sequence msg (o, w) = (r, (o', w')) -> same_dirs w w'.
Proof.
  rewrite snapshot_sequence_run. cbv zeta.
  destruct (subprocess_run stage_args _ _ _ w) as [r1 w1] eqn:E1.
  apply subprocess_run_same_dirs in E1.
  destruct r1 as [c1|e]; [|now intros [= _ _ <-]].
  destruct (subprocess_run probe_args _ _ _ w1) as [r2 w2] eqn:E2.
  apply subprocess_run_same_dirs in E2.
  pose proof (same_dirs_trans _ _ _ E1 E2) as S2.
  destruct r2 as [c2|e]; [|now intros [= _ _ <-]].
  destruct (subprocess_run (commit_args msg) _ _ _ w2) as [r3 w3] eqn:E3.
  apply subprocess_run_same_dirs in E3.
  pose proof (same_dirs_trans _ _ _ S2 E3) as S3.
  destruct r3 as [c3|e]; [|now intros [= _ _ <-]].
  destruct (subprocess_run read_head_args _ _ _ w3) as [r4 w4] eqn:E4.
  apply subprocess_run_same_dirs in E4.
  pose proof (same_dirs_trans _ _ _ S3 E4) as S4.
  destruct r4 as [c4|e]; [|now intros [= _ _ <-]].
  destruct (stdout c4) as [out|]; [|now intros [= _ _ <-]].
  intros H. apply record_info_same_dirs in H.
  eapply same_dirs_trans; eauto.
Qed.

(** [_do_auto_commit] neither makes nor removes a directory. *)
Lemma do_auto_commit_same_dirs msg push o w r o' w' :
  _do_auto_commit msg push (o, w) = (r, (o', w')) -> same_dirs w w'.
Proof.
  unfold _do_auto_commit, try_except.
  destruct (snapshot_sequence msg (o, w)) as [[[]|e] [o1 w1]] eqn:E;
    apply snapshot_sequence_same_dirs in E; intros H.
  - now injection H as _ _ <-.
  - destruct e; now injection H as _ _ <-.
Qed.

Lemma dirs_added_keeps t w w' k n :
  dirs_added t w w' -> fs w !! k = Some n -> fs w' !! k = Some n.
Proof.
  intros [_ F] H. destruct (F k) as [->|(N & _)]; [exact H | congruence].
Qed.

(** C5: (1) whenever [initialize_experiment] returns normally, the
    instance has an experiment directory [<group>/<id>] and a logs
    directory [<group>/<id>/logs], and the latter is a directory of the
    file system.  (2) It does return normally, with the default
    generator and without auto-commit, in a well-formed file system
    whose working directory exists, where the group directory is not a
    file and no file stands on the way to the logs directory.
    (3) Under the same conditions on a path, [mkdir] with [parents] and
    [exist_ok] makes it a directory, creating the missing ancestors.
    (4) On a directory that is already there it returns normally and
    changes nothing.  (5) Whatever its outcome, every node that was
    there stays as it was. *)
Theorem logs_directory_exists_after_initialize o w :
  (forall o' w',
     initialize_experiment (o, w) = (Ok tt, (o', w')) ->
     exists id,
       _experiment_directory o' = Assigned (_group_dir o // id) /\
       _logs_dir o' = Assigned (_group_dir o // id // LOGS_NAME) /\
       logs_path (o', w') = (Ok (_group_dir o // id // LOGS_NAME), (o', w')) /\
       is_dir w' (_group_dir o // id // LOGS_NAME) = true) /\
  (_id_generator o = DefaultGenerator ->
   _auto_commit_git o = false ->
   well_formed (fs w) ->
   node_at (fs w) (cwd w) = Some Dir ->
   (forall c, node_at (fs w) (resolve w (_group_dir o)) <> Some (File c)) ->
   (forall id, _default_id_generator (o, w) = (Ok id, (o, w)) ->
      no_file_on_the_way (fs w)
        (resolve w (_group_dir o // id // LOGS_NAME))) ->
   exists o' w', initialize_experiment (o, w) = (Ok tt, (o', w'))) /\
  (forall l,
     well_formed (fs w) ->
     node_at (fs w) (cwd w) = Some Dir ->
     no_file_on_the_way (fs w) (resolve w l) ->
     exists w', Path_mkdir l true true w = (Ok tt, w') /\
                is_dir w' l = true) /\
  (forall l,
     well_formed (fs w) -> is_dir w l = true ->
     Path_mkdir l true true w = (Ok tt, w)) /\
  (forall l r w' k n,
     Path_mkdir l true true w = (r, w') ->
     fs w !! k = Some n -> fs w' !! k = Some n).
Proof.
  assert (Base : forall w0 a, fs w0 = fs w -> cwd w0 = cwd w ->
            node_at (fs w) (cwd w) = Some Dir ->
            node_at (fs w0) (resolve w0 (mkPath a [])) = Some Dir).
  { intros w0 a Ef Ec Hc. unfold resolve. simpl. rewrite Ef, Ec.
    destruct a; [reflexivity|]. now rewrite app_nil_r. }
  split; [|split; [|split; [|split]]].
  - intros o' w' H.
    apply initialize_experiment_Ok in H as (id & w0 & w1 & _ & Hm & -> & Hc).
    exists id. split; [reflexivity|]. split; [reflexivity|].
    split; [reflexivity|].
    apply Path_mkdir_parents_run in Hm as [_ I]. specialize (I eq_refl).
    destruct (_auto_commit_git o).
    + apply do_auto_commit_same_dirs in Hc.
      rewrite (is_dir_same_dirs _ _ _ Hc).
      exact I.
    + now subst.
  - intros Hg Ha W Hc Hgrp Hway.
    rewrite initialize_experiment_run, Hg, Ha. cbn [generate].
    set (w0 := log_info (_log o) (opening_message o) w).
    change (default_id (_group_dir o) w0) with (default_id (_group_dir o) w).
    specialize (Hway (match default_id (_group_dir o) w with
                      | Ok id => id | Err _ => "" end)).
    rewrite default_id_generator_run in Hway.
    destruct (default_id (_group_dir o) w) as [id|e] eqn:Ed.
    + cbv zeta.
      assert (S : exists w1,
                 Path_mkdir (_group_dir o // id // LOGS_NAME) true true w0
                 = (Ok tt, w1) /\ well_formed (fs w1)).
      { apply Path_mkdir_succeeds;
          [exact W | now apply Base | now apply Hway]. }
      destruct S as (w1 & -> & _). eauto.
    + unfold default_id in Ed.
      destruct (node_at (fs w) (resolve w (_group_dir o))) as [[c|]|] eqn:En;
        try discriminate.
      now destruct (Hgrp c).
  - intros l W Hc Hway.
    assert (S : exists w1, Path_mkdir l true true w = (Ok tt, w1) /\
                           well_formed (fs w1)).
    { apply Path_mkdir_succeeds; [exact W | now apply Base | exact Hway]. }
    destruct S as (w1 & E & _). exists w1. split; [exact E|].
    apply Path_mkdir_parents_run in E as [_ I]. now apply I.
  - intros l W Hd. now apply Path_mkdir_existing.
  - intros l r w' k n H. apply Path_mkdir_parents_run in H as [D _].
    now apply dirs_added_keeps with (t := resolve w l).
Qed.

(** ** The outputs path *)





Lemma run_initialize_Ok o w :
  fst (initialize_experiment (o, w)) = Ok tt ->
  initialize_experiment (o, w) =
  (Ok tt, (fst (run_initialize o w), snd (run_initialize o w))).
Proof.
  unfold run_initialize.
  destruct (initialize_experiment (o, w)) as [r [o' w']]. simpl.
  now intros ->.
Qed.



(** ** Identifiers: decimal numbers and timestamps *)

Lemma string_of_uint_digits d : all_digits (NilEmpty.string_of_uint d) = true.
Proof. induction d; simpl; auto. Qed.

Lemma str_of_nat_digits n : all_digits (str_of_nat n) = true.
Proof.
  unfold str_of_nat, NilZero.string_of_uint.
  destruct (Nat.to_uint n) eqn:E; try reflexivity;
    rewrite <- E; apply string_of_uint_digits.
Qed.

Lemma all_digits_occurs c s :
  is_digit c = false -> all_digits s = true -> occurs c s = false.
Proof.
  intros Hc. induction s as [|d s IH]; simpl; [reflexivity|].
  intros H. apply andb_prop in H as [Hd Hs]. rewrite (IH Hs), orb_false_r.
  destruct (Ascii.eqb_spec d c) as [->|]; [congruence | reflexivity].
Qed.

Lemma nat_of_str_of_nat n : nat_of_str (str_of_nat n) = Some n.
Proof.
  unfold nat_of_str, str_of_nat.
  pose proof (DecimalNat.Unsigned.of_to n) as E.
  destruct (Nat.to_uint n) as [| | | | | | | | | |] eqn:Ed;
    [simpl in *; now rewrite <- E|..];
    rewrite NilZero.usu by discriminate; simpl option_map; now rewrite E.
Qed.

Lemma str_of_nat_inj n n' : str_of_nat n = str_of_nat n' -> n = n'.
Proof.
  intros H. apply (f_equal nat_of_str) in H.
  rewrite !nat_of_str_of_nat in H. now injection H.
Qed.

(** A text cut at the first occurrence of a separator. *)
Lemma append_sep_inj c a a' b b' :
  occurs c a = false -> occurs c a' = false ->
  a +:+ String c b = a' +:+ String c b' -> a = a' /\ b = b'.
Proof.
  revert a'. induction a as [|x a IH]; intros [|x' a'] Ha Ha' E.
  - rewrite !append_empty_l in E. now injection E.
  - rewrite append_empty_l, append_cons in E. injection E as -> _.
    simpl in Ha'. now rewrite Ascii.eqb_refl in Ha'.
  - rewrite append_empty_l, append_cons in E. injection E as -> _.
    simpl in Ha. now rewrite Ascii.eqb_refl in Ha.
  - rewrite !append_cons in E. injection E as -> E.
    simpl in Ha, Ha'. apply orb_false_elim in Ha as [_ Ha].
    apply orb_false_elim in Ha' as [_ Ha'].
    destruct (IH a' Ha Ha' E) as [-> ->]. auto.
Qed.

Lemma digit_inj d d' : (d < 10)%N -> (d' < 10)%N -> digit d = digit d' -> d = d'.
Proof.
  unfold digit. intros H H' E. apply (f_equal N_of_ascii) in E.
  rewrite !N_ascii_embedding in E by lia. lia.
Qed.

Lemma pad2_inj n n' : (n < 100)%N -> (n' < 100)%N -> pad2 n = pad2 n' -> n = n'.
Proof.
  unfold pad2. intros H H' E. injection E as E1 E0.
  assert (B : forall m, (m < 100)%N -> (m / 10 < 10)%N /\ (m mod 10 < 10)%N).
  { intros m Hm. split; [apply N.Div0.div_lt_upper_bound; lia|].
    apply N.mod_lt. lia. }
  destruct (B n H), (B n' H').
  apply digit_inj in E1, E0; try assumption.
  rewrite (N.div_mod n 10), (N.div_mod n' 10) by lia. now rewrite E1, E0.
Qed.

(** Two readings print alike only if they agree down to the second. *)
Lemma strftime_inj t t' :
  valid_datetime t -> valid_datetime t' -> strftime t = strftime t' ->
  year t = year t' /\ month t = month t' /\ day t = day t' /\
  hour t = hour t' /\ minute t = minute t' /\ second t = second t'.
Proof.
  intros (Hm & Hd & Hh & Hmi & Hs & _) (Hm' & Hd' & Hh' & Hmi' & Hs' & _).
  unfold strftime.
  change ("-" +:+ ?x) with (String "-" x).
  intros E. apply append_sep_inj in E as [Ey E];
    try (apply all_digits_occurs; [reflexivity | apply str_of_nat_digits]).
  apply str_of_nat_inj, N2Nat.inj in Ey.
  unfold pad2 in E. repeat rewrite ?append_cons, ?append_empty_l in E.
  change ("_" +:+ ?x) with (String "_" x) in E.
  repeat rewrite ?append_cons, ?append_empty_l in E.
  injection E as M1 M0 D1 D0 H1 H0 I1 I0 S1 S0.
  repeat split; [exact Ey|..]; apply pad2_inj; try lia; unfold pad2;
    congruence.
Qed.

(** Readings at least a second apart print differently. *)
Lemma strftime_apart t t' :
  valid_datetime t -> valid_datetime t' -> seconds_apart t t' ->
  strftime t <> strftime t'.
Proof.
  intros V V' A E.
  destruct (strftime_inj _ _ V V' E) as (Ey & Em & Ed & Eh & Ei & Es).
  destruct V as (_ & _ & _ & _ & _ & Hu), V' as (_ & _ & _ & _ & _ & Hu').
  unfold seconds_apart, total_microseconds, toordinal in A.
  rewrite Ey, Em, Ed, Eh, Ei, Es in A. lia.
Qed.

(** Identifiers of the default form differ as soon as their
    timestamps do. *)
Lemma default_form_inj n n' s s' :
  str_of_nat n +:+ "_" +:+ s = str_of_nat n' +:+ "_" +:+ s' ->
  n = n' /\ s = s'.
Proof.
  change ("_" +:+ ?x) with (String "_" x). intros E.
  apply append_sep_inj in E as [En Es];
    try (apply all_digits_occurs; [reflexivity | apply str_of_nat_digits]).
  split; [now apply str_of_nat_inj | exact Es].
Qed.

(** ** Calling [initialize_experiment] again *)

Lemma same_configuration_with_directories id o :
  same_configuration o (with_directories id o).
Proof. now repeat split. Qed.

(** [initialize_experiment] does not look at the attributes it assigns:
    on instances configured alike it has the same outcome, leaves the
    same world and, when it returns normally, the same instance. *)
Lemma initialize_experiment_same_configuration o1 o2 w r o1' w' :
  same_configuration o1 o2 ->
  initialize_experiment (o1, w) = (r, (o1', w')) ->
  exists o2', initialize_experiment (o2, w) = (r, (o2', w')) /\
              (r = Ok tt -> o2' = o1').
Proof.
  intros (Hr & Ho & Hg & Hn & Hi & Ha & Hl).
  assert (Hw : forall id, with_directories id o1 = with_directories id o2).
  { intros id. destruct o1, o2. simpl in *. subst. reflexivity. }
  rewrite !initialize_experiment_run.
  unfold opening_message, commit_message.
  rewrite <- Hg, <- Hn, <- Hi, <- Ha, <- Hl.
  destruct (generate _ _ _) as [[id|e] w0]; cbv zeta.
  - destruct (Path_mkdir _ true true w0) as [[[]|e] w1].
    + rewrite <- Hw. destruct (_auto_commit_git o1).
      * intros ->. eauto.
      * intros [= <- <- <-]. eauto.
    + intros [= <- <- <-]. eexists. split; [reflexivity | discriminate].
  - intros [= <- <- <-]. eexists. split; [reflexivity | discriminate].
Qed.

(** C7: after a first normal return of [initialize_experiment],
    (1) a second call, in whatever world it is made, has the outcome
    and leaves the world that a call on the uninitialized instance
    would: no error comes from the instance being initialized already;
    (2) when it returns normally, the experiment directory is
    [<group>/<id>] for the identifier the generator then returns, the
    earlier reference being replaced; (3) with the default generator and
    clock readings at least one second apart, the two identifiers
    differ; (4) within one second and with the same entry count they can
    be equal: in [crowded_world] both calls return normally with the
    same experiment directory. *)
Theorem second_initialize o w o1 w1 :
  initialize_experiment (o, w) = (Ok tt, (o1, w1)) ->
  (forall w2 r o2 w2',
     initialize_experiment (o, w2) = (r, (o2, w2')) ->
     exists o2', initialize_experiment (o1, w2) = (r, (o2', w2')) /\
                 (r = Ok tt -> o2' = o2)) /\
  (forall w2 o2 w2',
     initialize_experiment (o1, w2) = (Ok tt, (o2, w2')) ->
     exists id w0,
       call_id_generator (_id_generator o1)
         (o1, log_info (_log o) (opening_message o) w2) = (Ok id, (o1, w0)) /\
       _experiment_directory o2 = Assigned (_group_dir o // id)) /\
  (_id_generator o = DefaultGenerator ->
   forall w2 o2 w2',
     initialize_experiment (o1, w2) = (Ok tt, (o2, w2')) ->
     valid_datetime (now w) -> valid_datetime (now w2) ->
     seconds_apart (now w) (now w2) ->
     exists id1 id2,
       _default_id_generator (o, w) = (Ok id1, (o, w)) /\
       _default_id_generator (o1, w2) = (Ok id2, (o1, w2)) /\
       _experiment_directory o1 = Assigned (_group_dir o // id1) /\
       _experiment_directory o2 = Assigned (_group_dir o // id2) /\
       id1 <> id2) /\
  (exists a a' b b',
     initialize_experiment (sample false "checkpoints", crowded_world)
       = (Ok tt, (a, a')) /\
     initialize_experiment (a, a') = (Ok tt, (b, b')) /\
     now a' = now crowded_world /\
     _experiment_directory b = _experiment_directory a).
Proof.
  intros H1.
  pose proof (initialize_experiment_Ok _ _ _ _ H1)
    as (id1 & w0 & w0' & Hg1 & _ & E1 & _).
  assert (C : same_configuration o o1)
    by (rewrite E1; apply same_configuration_with_directories).
  split; [|split; [|split]].
  - intros w2 r o2 w2' H2.
    now apply (initialize_experiment_same_configuration o o1).
  - intros w2 o2 w2' H2.
    apply initialize_experiment_Ok in H2 as (id & v & v' & Hg & _ & E2 & _).
    destruct C as (_ & _ & Cg & Cn & Ci & _ & Cl).
    exists id, v. rewrite call_id_generator_run.
    unfold opening_message in *. rewrite Cg, Cn, Cl, Hg.
    split; [reflexivity|]. rewrite E2. reflexivity.
  - intros Hd w2 o2 w2' H2 V V2 A.
    apply initialize_experiment_Ok in H2 as (id2 & v & v' & Hg & _ & E2 & _).
    destruct C as (_ & _ & Cg & _ & Ci & _ & _).
    rewrite <- Ci, Hd in Hg. rewrite Hd in Hg1. simpl in Hg, Hg1.
    injection Hg as Hg _. injection Hg1 as Hg1 _.
    change (default_id ?g (log_info _ _ ?x)) with (default_id g x) in *.
    rewrite <- Cg in Hg.
    exists id1, id2. rewrite !default_id_generator_run, <- Cg, Hg, Hg1.
    split; [reflexivity|]. split; [reflexivity|].
    split; [now rewrite E1|]. split; [rewrite E2; simpl; now rewrite <- Cg|].
    intros ->. unfold default_id in Hg, Hg1.
    assert (S : strftime (now w) = strftime (now w2)).
    { destruct (node_at (fs w) _) as [[?|]|], (node_at (fs w2) _) as [[?|]|];
        try discriminate; injection Hg as Hg; injection Hg1 as Hg1;
        rewrite <- Hg in Hg1; now apply default_form_inj in Hg1. }
    now apply (strftime_apart _ _ V V2 A).
  - exists (fst (run_initialize (sample false "checkpoints") crowded_world)),
      (snd (run_initialize (sample false "checkpoints") crowded_world)),
      (fst (run_initialize
              (fst (run_initialize (sample false "checkpoints") crowded_world))
              (snd (run_initialize (sample false "checkpoints") crowded_world)))),
      (snd (run_initialize
              (fst (run_initialize (sample false "checkpoints") crowded_world))
              (snd (run_initialize (sample false "checkpoints") crowded_world)))).
    split; [apply run_initialize_Ok; vm_compute; reflexivity|].
    split; [apply run_initialize_Ok; vm_compute; reflexivity|].
    split; vm_compute; reflexivity.
Qed.

(** ** Checking sample worlds *)

Lemma well_formedb_sound f : well_formedb f = true -> well_formed f.
Proof.
  unfold well_formedb. rewrite forallb_forall. intros H k n Hk.
  specialize (H (k, n)). simpl in H.
  assert (Hin : In (k, n) (map_to_list f))
    by now apply list_elem_of_In, elem_of_map_to_list.
  specialize (H Hin).
  now destruct (node_at f (removelast k)) as [[|]|].
Qed.

Lemma no_file_on_the_wayb_sound f t :
  no_file_on_the_wayb f t = true -> no_file_on_the_way f t.
Proof.
  unfold no_file_on_the_wayb. rewrite forallb_forall.
  intros H k c [m ->] Hk.
  specialize (H k). rewrite Hk in H. simpl in H.
  assert (Hin : In k (prefixes (k ++ m))); [|now specialize (H Hin)].
  unfold prefixes. apply in_map_iff. exists (length k). split.
  - now rewrite firstn_app, Nat.sub_diag, firstn_all, app_nil_r.
  - apply in_seq. rewrite length_app. lia.
Qed.

(** ** The statements at sample inputs *)

(** C1 at a repository with nothing to commit: [git commit] exits with
    status 1, initialization returns normally and no text file differs
    from before. *)
Lemma failed_snapshot_at_clean_repository :
  exists w2,
    initialize_experiment (sample true "checkpoints", bare_world git_clean)
      = (Ok tt, (set_auto_commit_git true (fst (initialized false git_clean)),
                 w2)) /\
    forall p, read_text w2 p = read_text (bare_world git_clean) p.
Proof.
  destruct (failed_snapshot_is_caught_and_logged
              (sample true "checkpoints") (bare_world git_clean)
              (fst (initialized false git_clean))
              (snd (initialized false git_clean))
              (CalledProcessError 1
                 (commit_args (commit_message (sample true "checkpoints")))))
    as (w2 & l & E & _ & _ & _ & _ & R & _).
  - reflexivity.
  - apply (run_initialize_Ok (sample false "checkpoints")).
    vm_compute. reflexivity.
  - eapply commit_fails;
      [vm_compute; reflexivity | vm_compute; reflexivity
      | vm_compute; reflexivity | discriminate].
  - exists w2. split; [exact E | apply R; reflexivity].
Defined.

(** C1 (the claim fails as stated): where [git] cannot be started, the
    stage step fails with [FileNotFoundError]; the handler of
    [_do_auto_commit] takes [CalledProcessError] only, so the exception
    leaves [initialize_experiment], with the logs directory made and
    nothing logged at level [ERROR]. *)
Lemma missing_git_is_not_caught :
  fst (initialize_experiment
         (sample true "checkpoints", bare_world git_missing))
    = Err (OSError FileNotFoundError) /\
  is_dir (snd (run_initialize (sample true "checkpoints")
                 (bare_world git_missing)))
    (first_directory // LOGS_NAME) = true /\
  existsb (fun r => match rec_level r with ERROR => true | _ => false end)
    (log_records (snd (run_initialize (sample true "checkpoints")
                         (bare_world git_missing)))) = false.
Proof. repeat split; vm_compute; reflexivity. Qed.

(** C2 at a repository with a pending change, and at one where
    [git add] fails. *)
Lemma snapshot_sequence_at_samples :
  (exists w',
     snapshot_sequence "snapshot"
       (fst (initialized false git_dirty), snd (initialized false git_dirty))
       = (Ok tt, (fst (initialized false git_dirty), w')) /\
     read_text w' (info_file first_directory)
       = Some ("commit_hash: " +:+ head_hash +:+ newline) /\
     option_map has_commit_hash_line
       (read_text w' (info_file first_directory)) = Some true) /\
  fst (snapshot_sequence "snapshot"
         (fst (initialized false (git_failing_at 0)),
          snd (initialized false (git_failing_at 0))))
  = Err (CalledProcessError 128 stage_args).
Proof.
  split.
  - destruct (proj1 (proj2 (proj2
                (snapshot_sequence_steps "snapshot"
                   (fst (initialized false git_dirty))
                   (snd (initialized false git_dirty)))))
                "" 1%Z "" "" (head_hash +:+ newline) first_directory)
      as (w' & E & _ & T & _).
    + vm_compute; reflexivity.
    + vm_compute; reflexivity.
    + vm_compute; reflexivity.
    + vm_compute; reflexivity.
    + vm_compute; reflexivity.
    + vm_compute; reflexivity.
    + vm_compute; discriminate.
    + exists w'. split; [exact E|]. split.
      * etransitivity; [exact T|]. vm_compute. reflexivity.
      * rewrite T. vm_compute. reflexivity.
  - rewrite (proj1 (snapshot_sequence_steps "snapshot"
                      (fst (initialized false (git_failing_at 0)))
                      (snd (initialized false (git_failing_at 0))))
               128%Z "").
    + reflexivity.
    + vm_compute; reflexivity.
    + discriminate.
Defined.

(** C3 at a group directory with three entries and without a group
    directory. *)
Lemma default_identifier_at_samples :
  fst (_default_id_generator (sample false "checkpoints", busy_world))
    = Ok "3_2024-03-09_12-00-00" /\
  fst (_default_id_generator
         (sample false "checkpoints", bare_world git_dirty))
    = Ok "0_2024-03-09_12-00-00".
Proof.
  split.
  - pose proof (default_identifier_counts_entries
                  (sample false "checkpoints") busy_world) as H.
    cbv zeta in H. destruct H as (_ & _ & _ & _ & _ & H & _).
    rewrite H; [reflexivity | vm_compute; reflexivity
                | vm_compute; reflexivity].
  - pose proof (default_identifier_counts_entries
                  (sample false "checkpoints") (bare_world git_dirty)) as H.
    cbv zeta in H. destruct H as (_ & _ & _ & H & _).
    rewrite H; [reflexivity | vm_compute; reflexivity].
Defined.


(** C5 in the bare world: nothing but the working directory exists, and
    initialization returns normally with the logs directory made. *)
Lemma logs_directory_in_bare_world :
  exists o' w' id,
    initialize_experiment
      (sample false "checkpoints", bare_world git_dirty) = (Ok tt, (o', w')) /\
    is_dir w' (_group_dir (sample false "checkpoints") // id // LOGS_NAME)
    = true.
Proof.
  destruct (logs_directory_exists_after_initialize
              (sample false "checkpoints") (bare_world git_dirty))
    as (P1 & P2 & _).
  destruct P2 as (o' & w' & E).
  - reflexivity.
  - reflexivity.
  - apply well_formedb_sound. vm_compute; reflexivity.
  - vm_compute; reflexivity.
  - intros c. vm_compute. discriminate.
  - intros id H. apply (f_equal fst) in H. vm_compute in H.
    injection H as <-. apply no_file_on_the_wayb_sound.
    vm_compute; reflexivity.
  - destruct (P1 o' w' E) as (id & _ & _ & _ & I).
    exists o', w', id. split; [exact E | exact I].
Defined.


(** C7 with a second call one second after the first. *)
Lemma second_initialize_a_second_later :
  exists id1 id2,
    _default_id_generator (sample false "checkpoints", bare_world git_dirty)
      = (Ok id1, (sample false "checkpoints", bare_world git_dirty)) /\
    _default_id_generator
      (fst (initialized false git_dirty),
       set_now noon_and_a_second (snd (initialized false git_dirty)))
      = (Ok id2,
         (fst (initialized false git_dirty),
          set_now noon_and_a_second (snd (initialized false git_dirty)))) /\
    id1 <> id2.
Proof.
  destruct (second_initialize
              (sample false "checkpoints") (bare_world git_dirty)
              (fst (initialized false git_dirty))
              (snd (initialized false git_dirty)))
    as (_ & _ & P3 & _).
  - apply run_initialize_Ok. vm_compute; reflexivity.
  - destruct (P3 eq_refl
                (set_now noon_and_a_second (snd (initialized false git_dirty)))
                (fst (run_initialize (fst (initialized false git_dirty))
                        (set_now noon_and_a_second
                           (snd (initialized false git_dirty)))))
                (snd (run_initialize (fst (initialized false git_dirty))
                        (set_now noon_and_a_second
                           (snd (initialized false git_dirty))))))
      as (id1 & id2 & E1 & E2 & _ & _ & Hne).
    + apply run_initialize_Ok. vm_compute; reflexivity.
    + unfold valid_datetime. cbn. lia.
    + unfold valid_datetime. cbn. lia.
    + left. vm_compute. discriminate.
    + exists id1, id2. auto.
Defined.

(** C8 on an instance straight from the constructor; on one whose
    experiment directory is not there; on one whose group path is a
    regular file; and, after [initialize_experiment], with a [write]
    that cannot encode the text: the exception of [write] is raised, and
    [info.txt] is left behind empty. *)
Lemma record_info_errors_at_samples :
  record_info "x" (sample false "checkpoints", busy_world)
    = (Err (AttributeError "_experiment_directory"),
       (sample false "checkpoints", busy_world)) /\
  record_info "x"
    (with_directories "gone" (sample false "checkpoints"),
     bare_world git_dirty)
    = (Err (OSError FileNotFoundError),
       (with_directories "gone" (sample false "checkpoints"),
        bare_world git_dirty)) /\
  record_info "x"
    (with_directories "gone" (sample false "checkpoints"), group_file_world)
    = (Err (OSError NotADirectoryError),
       (with_directories "gone" (sample false "checkpoints"),
        group_file_world)) /\
  record_info_with open_append ascii_write e_acute
    (fst (initialized false git_dirty), snd (initialized false git_dirty))
    = (Err (OtherError "UnicodeEncodeError"),
       (fst (initialized false git_dirty),
        snd (open_append (info_file first_directory)
               (snd (initialized false git_dirty))))) /\
  read_text
    (snd (open_append (info_file first_directory)
            (snd (initialized false git_dirty))))
    (info_file first_directory) = Some "".
Proof.
  split; [|split; [|split; [|split]]].
  - apply (proj1 (record_info_errors_reach_the_caller "x"
                    (sample false "checkpoints") busy_world)
             "runs" "baseline" "mnist" false "checkpoints"
             (LoggingObject (UserLogger "train")) None busy_world).
    reflexivity.
  - apply (proj1 (proj2 (record_info_errors_reach_the_caller "x"
                           (with_directories "gone"
                              (sample false "checkpoints"))
                           (bare_world git_dirty)))
             (_group_dir (sample false "checkpoints") // "gone")).
    + reflexivity.
    + vm_compute; reflexivity.
  - apply (proj1 (proj2 (record_info_errors_reach_the_caller "x"
                           (with_directories "gone"
                              (sample false "checkpoints"))
                           group_file_world))
             (_group_dir (sample false "checkpoints") // "gone")).
    + reflexivity.
    + vm_compute; reflexivity.
  - apply (proj2 (proj2 (proj2 (record_info_errors_reach_the_caller e_acute
                                  (fst (initialized false git_dirty))
                                  (snd (initialized false git_dirty)))))
             open_append ascii_write first_directory
             (resolve (snd (initialized false git_dirty))
                (info_file first_directory))
             (snd (open_append (info_file first_directory)
                     (snd (initialized false git_dirty))))).
    + vm_compute; reflexivity.
    + apply pair_with_fst. vm_compute; reflexivity.
    + vm_compute; reflexivity.
  - vm_compute; reflexivity.
Defined.

(** C8 (the claim fails as stated): on an instance that the constructor
    has just returned, [record_info] fails with an exception that is not
    a file-system error. *)
Lemma record_info_before_initialize_not_a_filesystem_error :
  exists o w e s,
    Experiment_init "runs" "baseline" "mnist" false "checkpoints"
      LoggingNone None busy_world = (Ok o, w) /\
    record_info "x" (o, w) = (Err e, s) /\
    is_filesystem_error e = false.
Proof.
  eexists _, _, _, _. split; [reflexivity|]. split; reflexivity.
Qed.

(** C10 on an instance built with a logger. *)
Lemma accessors_on_a_new_instance :
  outputs_path (sample false "checkpoints", busy_world)
    = (Ok None, (sample false "checkpoints", busy_world)) /\
  logs_path (sample false "checkpoints", busy_world)
    = (Err (AttributeError "_logs_dir"),
       (sample false "checkpoints", busy_world)) /\
  experiment_root (sample false "checkpoints", busy_world)
    = (Ok (Path_of_string "runs"), (sample false "checkpoints", busy_world)).
Proof.
  destruct (accessors_before_initialize
              "runs" "baseline" "mnist" false "checkpoints"
              (LoggingObject (UserLogger "train")) None busy_world
              (sample false "checkpoints") busy_world eq_refl)
    as (H1 & H2 & H3 & _).
  auto.
Defined.

(** * Further properties of the class *)

(** ** No [CalledProcessError] leaves [initialize_experiment] *)

Lemma os_mkdir_error p w e w' :
  os_mkdir p w = (Err e, w') -> is_filesystem_error e = true.
Proof.
  intros H. apply os_mkdir_run in H as [(? & _)|[_ [[H _]|[[H _]|[H _]]]]];
    try discriminate; now injection H as ->.
Qed.

Lemma mkdir_leaf_error p ok w e w' :
  mkdir_leaf p ok w = (Err e, w') -> is_filesystem_error e = true.
Proof.
  unfold mkdir_leaf, try_except.
  destruct (os_mkdir p w) as [[[]|e1] w1] eqn:E; [discriminate|].
  pose proof (os_mkdir_error _ _ _ _ E) as F.
  destruct e1 as [| |x| |]; try discriminate.
  destruct x; try (now intros [= <- _]);
    run_step; destruct (negb ok || negb (is_dir w1 p));
    now intros [= <- _].
Qed.

Lemma mkdir_parents_error a rp ok w e w' :
  mkdir_parents a rp ok w = (Err e, w') -> is_filesystem_error e = true.
Proof.
  revert ok w e w'. induction rp as [|c rest IH]; intros ok w e w';
    cbn [mkdir_parents]; unfold try_except;
    match goal with |- context [os_mkdir ?p w] =>
      destruct (os_mkdir p w) as [[[]|e1] w1] eqn:E end;
    try discriminate;
    pose proof (os_mkdir_error _ _ _ _ E) as F;
    (destruct e1 as [| |x| |]; try discriminate);
    destruct x; try (now intros [= <- _]);
    try (run_step; destruct (negb ok || negb (is_dir w1 _));
         now intros [= <- _]).
  unfold bind.
  destruct (mkdir_parents a rest true w1) as [[[]|e2] w2] eqn:E2.
  - apply mkdir_leaf_error.
  - intros [= <- _]. eapply IH; eauto.
Qed.

Lemma Path_mkdir_error p w e w' :
  Path_mkdir p true true w = (Err e, w') -> is_filesystem_error e = true.
Proof. apply mkdir_parents_error. Qed.

(** X2: no [CalledProcessError] leaves [_do_auto_commit], whatever the
    instance and the world: the handler catches it wherever in the
    sequence it arises.  With the default generator none leaves
    [initialize_experiment] either. *)
Theorem CalledProcessError_never_leaves o w :
  (forall msg push st cmd,
     fst (_do_auto_commit msg push (o, w)) <> Err (CalledProcessError st cmd)) /\
  (_id_generator o = DefaultGenerator ->
   forall st cmd,
     fst (initialize_experiment (o, w)) <> Err (CalledProcessError st cmd)).
Proof.
  assert (A : forall msg push o1 w1 st cmd,
    fst (_do_auto_commit msg push (o1, w1))
    <> Err (CalledProcessError st cmd)).
  { intros msg push o1 w1 st cmd. unfold _do_auto_commit, try_except.
    destruct (snapshot_sequence msg (o1, w1)) as [[[]|e1] s1];
      [discriminate|].
    destruct e1; discriminate. }
  split; [intros msg push; apply A|].
  intros Hg st cmd. rewrite initialize_experiment_run, Hg. cbn [generate].
  unfold default_id.
  destruct (node_at _ _) as [[c|]|]; cbv zeta; try discriminate;
    (destruct (Path_mkdir _ true true _) as [[[]|e1] w2] eqn:Em;
     [ destruct (_auto_commit_git o); [apply A | discriminate]
     | apply Path_mkdir_error in Em; destruct e1; discriminate ]).
Qed.

(** X1: whatever the arguments and the outcome, the constructor leaves
    the file system, the working directory, the process trace, the log
    records and the handlers of the root logger as they were.  Its one
    effect on the world is the level of the root logger, set to [DEBUG]
    unless a logger is supplied.  An instance it returns has the logger
    supplied (the root logger for [None]), the generator supplied (the
    default one for [None]), and the group directory [root / group]. *)
Theorem construction_effects root name group auto outputs logging gen w r w' :
  Experiment_init root name group auto outputs logging gen w = (r, w') ->
  fs w' = fs w /\ cwd w' = cwd w /\ proc_trace w' = proc_trace w /\
  log_records w' = log_records w /\ root_handlers w' = root_handlers w /\
  root_level w' =
    match logging with
    | LoggingObject _ => root_level w
    | _ => DEBUG
    end /\
  (forall o, r = Ok o ->
     logging <> LoggingDefault /\
     _log o = match logging with
              | LoggingObject l => l
              | _ => RootLogger
              end /\
     _id_generator o = match gen with
                       | Some f => CustomGenerator f
                       | None => DefaultGenerator
                       end /\
     _group_dir o = Path_of_string root // group /\
     _outputs_name o = outputs /\ _auto_commit_git o = auto).
Proof.
  destruct logging.
  - rewrite Experiment_init_default_logger. intros [= <- <-].
    repeat split; discriminate.
  - rewrite Experiment_init_without_logger. intros [= <- <-].
    repeat split; try discriminate; now injection H as <-.
  - rewrite Experiment_init_with_logger. intros [= <- <-].
    repeat split; try discriminate; now injection H as <-.
Qed.

(** X3: when the group path is a regular file, [initialize_experiment]
    with the default generator raises [NotADirectoryError] from the
    entry count: the instance is unchanged, nothing is created, no
    process is run, and the opening line alone has been logged. *)
Theorem group_path_is_a_file o w c :
  _id_generator o = DefaultGenerator ->
  node_at (fs w) (resolve w (_group_dir o)) = Some (File c) ->
  exists w',
    initialize_experiment (o, w) = (Err (OSError NotADirectoryError), (o, w')) /\
    fs w' = fs w /\ proc_trace w' = proc_trace w /\
    log_records w' =
      (log_records w ++
       [mkLogRecord (_log o) INFO (opening_message o) None])%list.
Proof.
  intros Hg Hn. rewrite initialize_experiment_run, Hg. cbn [generate].
  unfold default_id.
  change (node_at (fs (log_info _ _ w)) (resolve (log_info _ _ w) ?p))
    with (node_at (fs w) (resolve w p)).
  rewrite Hn. eexists. split; [reflexivity|]. auto.
Qed.

Lemma dirs_added_same_but_fs t w w' : dirs_added t w w' -> same_but_fs w w'.
Proof. now intros [S _]. Qed.

(** X4: with the default generator, whatever its outcome,
    [initialize_experiment] starts no process other than the first few
    of the four git commands of the snapshot, in order and in the
    working directory of the process; with auto-commit disabled it
    starts none. *)
Theorem initialize_runs_only_the_snapshot_commands o w r o' w' :
  _id_generator o = DefaultGenerator ->
  initialize_experiment (o, w) = (r, (o', w')) ->
  exists n,
    proc_trace w' =
      (proc_trace w ++
       map (git_command w)
         (firstn n (sequence_commands (commit_message o))))%list /\
    (_auto_commit_git o = false -> n = 0).
Proof.
  intros Hg. rewrite initialize_experiment_run, Hg. cbn [generate].
  set (w0 := log_info (_log o) (opening_message o) w).
  assert (Z : forall v, proc_trace v = proc_trace w ->
            exists n,
              proc_trace v =
                (proc_trace w ++
                 map (git_command w)
                   (firstn n (sequence_commands (commit_message o))))%list /\
              (_auto_commit_git o = false -> n = 0)).
  { intros v ->. exists 0. simpl. now rewrite app_nil_r. }
  destruct (default_id (_group_dir o) w0) as [id|e]; cbv zeta;
    [|intros [= _ _ <-]; now apply Z].
  destruct (Path_mkdir _ true true w0) as [[[]|e] w2] eqn:Em;
    apply Path_mkdir_parents_run in Em as [[S _] _];
    [|intros [= _ _ <-]; apply Z; now rewrite (same_but_fs_trace _ _ S)].
  destruct (_auto_commit_git o) eqn:Ha;
    [|intros [= _ _ <-]; apply Z; now rewrite (same_but_fs_trace _ _ S)].
  intros H. apply do_auto_commit_trace in H as [n H]. exists n.
  split; [|discriminate]. rewrite H. simpl.
  rewrite (same_but_fs_trace _ _ S). unfold git_command. simpl.
  now rewrite (same_but_fs_cwd _ _ S).
Qed.

Lemma open_append_Ok_file p w f w' :
  open_append p w = (Ok f, w') ->
  f = resolve w p /\ exists c, fs w' !! f = Some (File c).
Proof.
  unfold open_append.
  destruct (node_at (fs w) (removelast (resolve w p))) as [[c|]|];
    [discriminate | |
     destruct (file_above (fs w) (removelast (resolve w p))); discriminate].
  destruct (node_at (fs w) (resolve w p)) as [[c|]|] eqn:Et;
    try discriminate; intros [= <- <-]; (split; [reflexivity|]).
  - destruct (resolve w p); [discriminate|]. simpl in Et. eauto.
  - simpl. rewrite lookup_insert_eq. eauto.
Qed.

Lemma open_append_frame p w r w' :
  open_append p w = (r, w') ->
  forall k, k <> resolve w p -> fs w' !! k = fs w !! k.
Proof.
  unfold open_append.
  destruct (node_at (fs w) (removelast (resolve w p))) as [[c|]|];
    [| destruct (node_at (fs w) (resolve w p)) as [[c|]|]
     | destruct (file_above (fs w) (removelast (resolve w p)))];
    intros [= <- <-] k Hk; try reflexivity.
  simpl. now rewrite lookup_insert_ne.
Qed.

Lemma subprocess_run_logs args check dir capture w r w' :
  subprocess_run args check dir capture w = (r, w') ->
  log_records w' = log_records w.
Proof.
  intros H. now apply subprocess_run_world in H as [[-> _]| ->].
Qed.

Lemma snapshot_sequence_logs msg o w r o' w' :
  snapshot_sequence msg (o, w) = (r, (o', w')) ->
  log_records w' = log_records w.
Proof.
  rewrite snapshot_sequence_run. cbv zeta.
  destruct (subprocess_run stage_args _ _ _ w) as [r1 w1] eqn:E1.
  apply subprocess_run_logs in E1.
  destruct r1 as [c1|e]; [|now intros [= _ _ <-]].
  destruct (subprocess_run probe_args _ _ _ w1) as [r2 w2] eqn:E2.
  apply subprocess_run_logs in E2. rewrite E1 in E2.
  destruct r2 as [c2|e]; [|now intros [= _ _ <-]].
  destruct (subprocess_run (commit_args msg) _ _ _ w2) as [r3 w3] eqn:E3.
  apply subprocess_run_logs in E3. rewrite E2 in E3.
  destruct r3 as [c3|e]; [|now intros [= _ _ <-]].
  destruct (subprocess_run read_head_args _ _ _ w3) as [r4 w4] eqn:E4.
  apply subprocess_run_logs in E4. rewrite E3 in E4.
  destruct r4 as [c4|e]; [|now intros [= _ _ <-]].
  destruct (stdout c4) as [out|]; [|now intros [= _ _ <-]].
  intros H. apply record_info_same_but_fs in H as [_ S].
  now rewrite (same_but_fs_logs _ _ S).
Qed.

Lemma do_auto_commit_logs msg push o w r o' w' :
  _do_auto_commit msg push (o, w) = (r, (o', w')) ->
  (log_records w' = log_records w /\
   forall st cmd, r <> Err (CalledProcessError st cmd)) \/
  exists st cmd,
    r = Ok tt /\
    log_records w' =
      (log_records w ++
       [mkLogRecord (_log o) ERROR "Git command failed: "
          (Some (CalledProcessError st cmd))])%list.
Proof.
  unfold _do_auto_commit, try_except.
  destruct (snapshot_sequence msg (o, w)) as [[[]|e] [o1 w1]] eqn:E;
    pose proof (snapshot_sequence_trace _ _ _ _ _ _ E) as [-> _];
    apply snapshot_sequence_logs in E.
  - intros [= <- _ <-]. left. split; [exact E | discriminate].
  - destruct e; try (intros [= <- _ <-]; left; split; [exact E | discriminate]).
    run_step. intros [= <- _ <-]. right. simpl. rewrite E. eauto.
Qed.

(** X6: with the default generator, whatever its outcome,
    [initialize_experiment] first logs the opening line at level [INFO]
    on the logger of the instance; what follows is nothing, or the
    announcement of the commit, or the announcement and one [ERROR]
    record carrying a [CalledProcessError], the call then returning
    normally.  With auto-commit disabled nothing follows. *)
Theorem initialize_log_records o w r o' w' :
  _id_generator o = DefaultGenerator ->
  initialize_experiment (o, w) = (r, (o', w')) ->
  exists rest,
    log_records w' =
      (log_records w ++
       mkLogRecord (_log o) INFO (opening_message o) None :: rest)%list /\
    (_auto_commit_git o = false -> rest = []) /\
    (rest = [] \/ rest = [announcement o] \/
     exists st cmd,
       r = Ok tt /\
       rest = [announcement o;
               mkLogRecord (_log o) ERROR "Git command failed: "
                 (Some (CalledProcessError st cmd))]).
Proof.
  intros Hg. rewrite initialize_experiment_run, Hg. cbn [generate].
  set (w0 := log_info (_log o) (opening_message o) w).
  assert (L0 : log_records w0 =
               (log_records w ++
                [mkLogRecord (_log o) INFO (opening_message o) None])%list)
    by reflexivity.
  destruct (default_id (_group_dir o) w0) as [id|e]; cbv zeta;
    [|intros [= _ _ <-]; exists []; auto].
  destruct (Path_mkdir _ true true w0) as [[[]|e] w2] eqn:Em;
    apply Path_mkdir_parents_run in Em as [[S _] _];
    apply same_but_fs_logs in S; rewrite L0 in S;
    [|intros [= _ _ <-]; exists []; auto].
  destruct (_auto_commit_git o) eqn:Ha;
    [|intros [= _ _ <-]; exists []; auto].
  intros H. apply do_auto_commit_logs in H as [[H _]|(st & cmd & -> & H)];
    simpl in H; rewrite S, <- !app_assoc in H; simpl in H.
  - exists [announcement o]. split; [exact H|]. split; [discriminate | auto].
  - eexists. split; [exact H|]. split; [discriminate|].
    right. right. exists st, cmd. split; reflexivity.
Qed.

(** X7: when the four git commands succeed but [info.txt] cannot be
    opened for appending, [_do_auto_commit] does not handle the error:
    the [OSError] reaches the caller, the four commands (the commit
    among them) having run and nothing having been logged or written. *)
Theorem write_failure_after_commit
    msg push o w out1 st2 out2 out3 out d e w1 :
  exits w [] stage_args 0 out1 ->
  exits w [stage_args] probe_args st2 out2 ->
  exits w [stage_args; probe_args] (commit_args msg) 0 out3 ->
  exits w [stage_args; probe_args; commit_args msg] read_head_args 0 out ->
  _experiment_directory o = Assigned d ->
  open_append (info_file d) (after_commands w (sequence_commands msg))
    = (Err e, w1) ->
  _do_auto_commit msg push (o, w) =
    (Err e, (o, after_commands w (sequence_commands msg))) /\
  is_filesystem_error e = true.
Proof.
  intros H1 H2 H3 H4 Hd Ho.
  pose proof (open_append_errors _ _ _ _ Ho) as [F ->].
  split; [|exact F].
  unfold _do_auto_commit, try_except.
  rewrite (snapshot_sequence_success _ _ _ _ _ _ _ _ H1 H2 H3 H4).
  rewrite (record_info_run _ _ _ _ Hd), Ho.
  destruct e; try discriminate. reflexivity.
Qed.


(** ** Well-formedness of the file system is kept *)

Lemma well_formed_insert_file f t c :
  well_formed f -> node_at f (removelast t) = Some Dir ->
  f !! t <> Some Dir ->
  well_formed (<[t := File c]> f).
Proof.
  intros W Hp Hn k n Hk.
  assert (P : node_at f (removelast k) = Some Dir).
  { rewrite lookup_insert in Hk. destruct (decide (t = k)) as [<-|];
      [exact Hp | eapply W; eauto]. }
  destruct (removelast k) as [|x q] eqn:Er; [reflexivity|].
  simpl in *. rewrite lookup_insert.
  destruct (decide (t = x :: q)) as [->|]; [contradiction | exact P].
Qed.

Lemma os_mkdir_well_formed p w r w' :
  well_formed (fs w) -> os_mkdir p w = (r, w') -> well_formed (fs w').
Proof.
  intros W H. apply os_mkdir_run in H as [(_ & -> & _ & Hp)|[-> _]];
    [|exact W].
  simpl. now apply well_formed_insert_dir.
Qed.

Lemma mkdir_leaf_well_formed p ok w r w' :
  well_formed (fs w) -> mkdir_leaf p ok w = (r, w') -> well_formed (fs w').
Proof.
  intros W. unfold mkdir_leaf, try_except.
  destruct (os_mkdir p w) as [[[]|e] w1] eqn:E;
    pose proof (os_mkdir_well_formed _ _ _ _ W E) as W1.
  - now intros [= _ <-].
  - destruct e as [| |x| |]; try (now intros [= _ <-]).
    destruct x; try (now intros [= _ <-]);
      intros H; apply mkdir_handler_run in H as [-> _]; exact W1.
Qed.

Lemma mkdir_parents_well_formed a rp ok w r w' :
  well_formed (fs w) -> mkdir_parents a rp ok w = (r, w') ->
  well_formed (fs w').
Proof.
  revert ok w r w'. induction rp as [|c rest IH]; intros ok w r w' W;
    cbn [mkdir_parents]; unfold try_except;
    match goal with |- context [os_mkdir ?p w] =>
      destruct (os_mkdir p w) as [[[]|e] w1] eqn:E end;
    pose proof (os_mkdir_well_formed _ _ _ _ W E) as W1;
    try (now intros [= _ <-]);
    (destruct e as [| |x| |]; try (now intros [= _ <-]));
    destruct x; try (now intros [= _ <-]);
    try (intros H; apply mkdir_handler_run in H as [-> _]; exact W1).
  unfold bind.
  destruct (mkdir_parents a rest true w1) as [[[]|e2] w2] eqn:E2;
    pose proof (IH _ _ _ _ W1 E2) as W2.
  - now apply mkdir_leaf_well_formed.
  - now intros [= _ <-].
Qed.

Lemma Path_mkdir_well_formed p w r w' :
  well_formed (fs w) -> Path_mkdir p true true w = (r, w') ->
  well_formed (fs w').
Proof. unfold Path_mkdir. apply mkdir_parents_well_formed. Qed.

Lemma open_append_well_formed p w r w' :
  well_formed (fs w) -> open_append p w = (r, w') -> well_formed (fs w').
Proof.
  intros W. unfold open_append.
  destruct (node_at (fs w) (removelast (resolve w p))) as [[c|]|] eqn:Ep;
    [| destruct (node_at (fs w) (resolve w p)) as [[c|]|] eqn:Et
     | destruct (file_above (fs w) (removelast (resolve w p)))];
    intros [= <- <-]; try exact W.
  simpl. apply well_formed_insert_file; auto.
  destruct (resolve w p); [discriminate|]. simpl in Et. now rewrite Et.
Qed.

Lemma file_write_well_formed f s w r w' :
  well_formed (fs w) -> file_write f s w = (r, w') -> well_formed (fs w').
Proof.
  intros W. unfold file_write.
  destruct (fs w !! f) as [[c|]|] eqn:Ef; intros [= <- <-]; try exact W.
  simpl. apply well_formed_insert_file; auto.
  - eapply W; eauto.
  - now rewrite Ef.
Qed.

Lemma record_info_well_formed info o w r o' w' :
  well_formed (fs w) -> record_info info (o, w) = (r, (o', w')) ->
  well_formed (fs w').
Proof.
  intros W H. destruct (_experiment_directory o) as [|d] eqn:Hd.
  - rewrite (record_info_unassigned _ _ _ Hd) in H. now injection H as _ _ <-.
  - rewrite (record_info_run _ _ _ _ Hd) in H.
    destruct (open_append (info_file d) w) as [[f|e] w1] eqn:Eo;
      pose proof (open_append_well_formed _ _ _ _ W Eo) as W1.
    + destruct (file_write f (info +:+ newline) w1) as [r2 w2] eqn:Ew.
      simpl in H. injection H as _ _ <-.
      eapply file_write_well_formed; eauto.
    + now injection H as _ _ <-.
Qed.

Lemma subprocess_run_fs args check dir capture w r w' :
  subprocess_run args check dir capture w = (r, w') ->
  fs w' = fs w /\ cwd w' = cwd w.
Proof.
  intros H. now apply subprocess_run_world in H as [[-> _]| ->].
Qed.

Lemma snapshot_sequence_well_formed msg o w r o' w' :
  well_formed (fs w) -> snapshot_sequence msg (o, w) = (r, (o', w')) ->
  well_formed (fs w').
Proof.
  intros W. rewrite snapshot_sequence_run. cbv zeta.
  destruct (subprocess_run stage_args _ _ _ w) as [r1 w1] eqn:E1.
  apply subprocess_run_fs in E1 as [E1 _]. rewrite <- E1 in W.
  destruct r1 as [c1|e]; [|now intros [= _ _ <-]].
  destruct (subprocess_run probe_args _ _ _ w1) as [r2 w2] eqn:E2.
  apply subprocess_run_fs in E2 as [E2 _]. rewrite <- E2 in W.
  destruct r2 as [c2|e]; [|now intros [= _ _ <-]].
  destruct (subprocess_run (commit_args msg) _ _ _ w2) as [r3 w3] eqn:E3.
  apply subprocess_run_fs in E3 as [E3 _]. rewrite <- E3 in W.
  destruct r3 as [c3|e]; [|now intros [= _ _ <-]].
  destruct (subprocess_run read_head_args _ _ _ w3) as [r4 w4] eqn:E4.
  apply subprocess_run_fs in E4 as [E4 _]. rewrite <- E4 in W.
  destruct r4 as [c4|e]; [|now intros [= _ _ <-]].
  destruct (stdout c4) as [out|]; [|now intros [= _ _ <-]].
  now apply record_info_well_formed.
Qed.

Lemma do_auto_commit_well_formed msg push o w r o' w' :
  well_formed (fs w) -> _do_auto_commit msg push (o, w) = (r, (o', w')) ->
  well_formed (fs w').
Proof.
  intros W. unfold _do_auto_commit, try_except.
  destruct (snapshot_sequence msg (o, w)) as [[[]|e] [o1 w1]] eqn:E;
    apply (snapshot_sequence_well_formed _ _ _ _ _ _ W) in E.
  - now intros [= _ _ <-].
  - destruct e; now intros [= _ _ <-].
Qed.

Lemma initialize_experiment_well_formed o w r o' w' :
  _id_generator o = DefaultGenerator ->
  well_formed (fs w) -> initialize_experiment (o, w) = (r, (o', w')) ->
  well_formed (fs w').
Proof.
  intros Hg W. rewrite initialize_experiment_run, Hg. cbn [generate].
  set (w0 := log_info (_log o) (opening_message o) w).
  destruct (default_id (_group_dir o) w0) as [id|e]; cbv zeta;
    [|now intros [= _ _ <-]].
  destruct (Path_mkdir _ true true w0) as [[[]|e] w2] eqn:Em;
    apply (Path_mkdir_well_formed _ w0 _ _ W) in Em;
    [|now intros [= _ _ <-]].
  destruct (_auto_commit_git o); [|now intros [= _ _ <-]].
  now apply do_auto_commit_well_formed.
Qed.

(** X8: in a file system where every node sits in a directory,
    [initialize_experiment] (with the default generator) and
    [record_info] leave it so, whatever their outcome. *)
Theorem well_formedness_is_kept o w :
  well_formed (fs w) ->
  (_id_generator o = DefaultGenerator ->
   forall r o' w',
     initialize_experiment (o, w) = (r, (o', w')) -> well_formed (fs w')) /\
  (forall info r o' w',
     record_info info (o, w) = (r, (o', w')) -> well_formed (fs w')).
Proof.
  intros W. split.
  - intros Hg r o' w'. now apply initialize_experiment_well_formed.
  - intros info r o' w'. now apply record_info_well_formed.
Qed.

(** ** A file in the way *)

Lemma nothing_below_file f k c m :
  well_formed f -> node_at f k = Some (File c) -> m <> [] ->
  node_at f (k ++ m)%list = None.
Proof.
  intros W Hk. induction m as [|x m IH] using rev_ind; [contradiction|].
  intros _. rewrite app_assoc.
  destruct (node_at f ((k ++ m) ++ [x])%list) as [n|] eqn:E; [|reflexivity].
  apply (well_formed_parent _ _ _ W) in E. rewrite removelast_last in E.
  destruct m as [|y m'].
  - rewrite app_nil_r in E. congruence.
  - rewrite IH in E by discriminate. discriminate.
Qed.

Lemma mkdir_parents_blocked a rp w k c :
  well_formed (fs w) ->
  node_at (fs w) k = Some (File c) ->
  resolve w (mkPath a []) `prefix_of` k ->
  k `prefix_of` resolve w (mkPath a (rev rp)) ->
  exists e, mkdir_parents a rp true w = (Err (OSError e), w) /\
            (e = NotADirectoryError \/ e = FileExistsError).
Proof.
  intros W Hk. revert k Hk. induction rp as [|x rest IH]; intros k Hk Hb Ht.
  - simpl in Ht. assert (k = resolve w (mkPath a [])) as ->.
    { destruct Hb as [m1 ->], Ht as [m2 E].
      rewrite <- app_assoc in E. rewrite <- (app_nil_r (resolve _ _)) in E at 1.
      apply app_inv_head in E. symmetry in E.
      apply app_eq_nil in E as [-> _]. now rewrite app_nil_r. }
    simpl. unfold try_except, os_mkdir.
    rewrite (well_formed_parent _ _ _ W Hk), Hk. run_step.
    unfold is_dir. rewrite Hk. simpl. eauto.
  - cbn [mkdir_parents]. unfold try_except.
    set (p := mkPath a (rev (x :: rest))) in *.
    assert (Rp : resolve w p = (resolve w (mkPath a (rev rest)) ++ [x])%list)
      by (unfold p; simpl rev; apply resolve_snoc).
    assert (Hpar : removelast (resolve w p) = resolve w (mkPath a (rev rest)))
      by (rewrite Rp; apply removelast_last).
    destruct Ht as [m Em].
    destruct m as [|y m _] using rev_ind.
    + rewrite app_nil_r in Em. subst k.
      pose proof (well_formed_parent _ _ _ W Hk) as Hp.
      unfold os_mkdir. rewrite Hp, Hk. run_step.
      unfold is_dir. rewrite Hk. simpl. eauto.
    + rewrite Rp, app_assoc in Em. apply app_inj_tail in Em as [Em ->].
      destruct m as [|z m'].
      * rewrite app_nil_r in Em.
        assert (Htar : node_at (fs w) (resolve w p) = None).
        { rewrite Rp, Em.
          apply (nothing_below_file _ _ c);
            [exact W | exact Hk | discriminate]. }
        unfold os_mkdir. rewrite Hpar, Em, Hk. run_step.
        unfold is_dir. rewrite Htar. simpl. eauto.
      * assert (Hn : node_at (fs w) (resolve w (mkPath a (rev rest))) = None).
        { rewrite Em.
          apply (nothing_below_file _ _ c);
            [exact W | exact Hk | discriminate]. }
        unfold os_mkdir. rewrite Hpar, Hn. unfold bind.
        destruct (IH k Hk Hb) as (e & -> & He);
          [rewrite Em; eexists; reflexivity|]. eauto.
Qed.


Lemma is_dir_below_file w p k c :
  well_formed (fs w) -> node_at (fs w) k = Some (File c) ->
  k `prefix_of` resolve w p -> is_dir w p = false.
Proof.
  intros W Hk [m E]. unfold is_dir. rewrite E.
  destruct m as [|x m].
  - now rewrite app_nil_r, Hk.
  - now rewrite (nothing_below_file _ _ c (x :: m) W Hk).
Qed.

(** X9: in a well-formed file system, when a regular file sits at a
    path on the way to the logs directory (from the root, or from the
    working directory for a relative path), [initialize_experiment] with
    the default generator raises [NotADirectoryError] or
    [FileExistsError] and creates nothing.  The instance is left half
    initialized: [logs_path] returns the logs path, which is not a
    directory, and [outputs_path] returns what it returned before. *)
Theorem file_in_the_way o w id k c :
  _id_generator o = DefaultGenerator ->
  well_formed (fs w) ->
  _default_id_generator (o, w) = (Ok id, (o, w)) ->
  node_at (fs w) k = Some (File c) ->
  resolve w (mkPath (absolute (_group_dir o // id // LOGS_NAME)) [])
    `prefix_of` k ->
  k `prefix_of` resolve w (_group_dir o // id // LOGS_NAME) ->
  exists e o' w',
    initialize_experiment (o, w) = (Err (OSError e), (o', w')) /\
    (e = NotADirectoryError \/ e = FileExistsError) /\
    fs w' = fs w /\
    logs_path (o', w') = (Ok (_group_dir o // id // LOGS_NAME), (o', w')) /\
    is_dir w' (_group_dir o // id // LOGS_NAME) = false /\
    outputs_path (o', w') = (Ok (_output_dir o), (o', w')).
Proof.
  intros Hg W Hid Hk Hb Ht.
  rewrite default_id_generator_run in Hid. injection Hid as Hid.
  rewrite initialize_experiment_run, Hg. cbn [generate].
  set (w0 := log_info (_log o) (opening_message o) w).
  change (default_id (_group_dir o) w0) with (default_id (_group_dir o) w).
  rewrite Hid. cbv zeta.
  set (l := _group_dir o // id // LOGS_NAME) in *.
  destruct (mkdir_parents_blocked (absolute l) (rev (parts l)) w0 k c)
    as (e & E & He); try assumption.
  { rewrite rev_involutive. now destruct l. }
  unfold Path_mkdir. rewrite E.
  eexists e, _, w0. split; [reflexivity|]. split; [exact He|].
  split; [reflexivity|]. split; [reflexivity|].
  split; [|reflexivity].
  now apply (is_dir_below_file w0 l k c).
Qed.

(** ** The default identifier is a name *)

Lemma occurs_append c a b : occurs c (a +:+ b) = occurs c a || occurs c b.
Proof.
  induction a as [|x a IH]; [reflexivity|].
  rewrite append_cons. simpl. now rewrite IH, orb_assoc.
Qed.

Lemma digit_is_digit d : (d < 10)%N -> is_digit (digit d) = true.
Proof.
  intros H.
  assert (E : d = 0%N \/ d = 1%N \/ d = 2%N \/ d = 3%N \/ d = 4%N \/
              d = 5%N \/ d = 6%N \/ d = 7%N \/ d = 8%N \/ d = 9%N) by lia.
  repeat (destruct E as [->|E]; [reflexivity|]). now subst.
Qed.

Lemma pad2_digits n : (n < 100)%N -> all_digits (pad2 n) = true.
Proof.
  intros H. unfold pad2. simpl.
  rewrite !digit_is_digit; [reflexivity| |].
  - apply N.mod_lt. lia.
  - apply N.Div0.div_lt_upper_bound. lia.
Qed.

Lemma strftime_no_slash t : valid_datetime t -> occurs slash (strftime t) = false.
Proof.
  intros (Hm & Hd & Hh & Hi & Hs & _). unfold strftime.
  assert (P : forall n, (n < 100)%N -> occurs slash (pad2 n) = false).
  { intros n Hn. apply all_digits_occurs; [reflexivity|].
    now apply pad2_digits. }
  rewrite !occurs_append, !P by lia.
  rewrite (all_digits_occurs slash (str_of_nat _)) by
    (try reflexivity; apply str_of_nat_digits).
  reflexivity.
Qed.

Lemma default_form_plain n t :
  valid_datetime t -> plain_name (str_of_nat n +:+ "_" +:+ strftime t).
Proof.
  intros V.
  assert (U : occurs "_" (str_of_nat n +:+ "_" +:+ strftime t) = true).
  { rewrite !occurs_append. simpl. now rewrite orb_true_r. }
  repeat split.
  - intros E. rewrite E in U. discriminate.
  - intros E. rewrite E in U. discriminate.
  - intros E. rewrite E in U. discriminate.
  - rewrite !occurs_append, (strftime_no_slash _ V).
    rewrite (all_digits_occurs slash (str_of_nat _)) by
      (try reflexivity; apply str_of_nat_digits).
    reflexivity.
Qed.

Lemma get_experiment_index_run o w :
  _get_experiment_index (o, w) =
  (match node_at (fs w) (resolve w (_group_dir o)) with
   | None => Ok 0
   | Some Dir => Ok (length (entries (fs w) (resolve w (_group_dir o))))
   | Some (File _) => Err (OSError NotADirectoryError)
   end, (o, w)).
Proof.
  unfold _get_experiment_index, Path_exists, Path_iterdir, path_exists.
  run_step.
  destruct (node_at (fs w) (resolve w (_group_dir o))) as [[c|]|] eqn:E;
    simpl; rewrite ?E; simpl; try reflexivity.
  now rewrite length_map.
Qed.

Lemma default_id_generator_form o w id s :
  _default_id_generator (o, w) = (Ok id, s) ->
  exists n, _get_experiment_index (o, w) = (Ok n, (o, w)) /\
            id = str_of_nat n +:+ "_" +:+ strftime (now w) /\ s = (o, w).
Proof.
  rewrite default_id_generator_run, get_experiment_index_run.
  unfold default_id.
  destruct (node_at (fs w) (resolve w (_group_dir o))) as [[c|]|];
    intros [= <- <-]; eauto.
Qed.

(** X10: at a valid clock reading, the identifier of the default
    generator is one plain path component: joining it to a directory
    appends exactly that component, whose name is the identifier. *)
Theorem default_identifier_is_a_name o w id s :
  valid_datetime (now w) ->
  _default_id_generator (o, w) = (Ok id, s) ->
  plain_name id /\
  forall g, g // id = mkPath (absolute g) (parts g ++ [id]) /\
            Path_name (g // id) = id /\
            resolve w (g // id) = (resolve w g ++ [id])%list.
Proof.
  intros V H. apply default_id_generator_form in H as (n & _ & -> & _).
  pose proof (default_form_plain n _ V) as P. split; [exact P|].
  intros g. split; [now apply truediv_plain|].
  split; [now apply Path_name_truediv_plain|].
  now apply resolve_truediv_plain.
Qed.

(** X11: at valid clock readings, two identifiers of the default
    generator are equal exactly when the entry counts are equal and the
    clock readings agree down to the second. *)
Theorem default_identifier_determines o1 w1 o2 w2 n1 n2 id1 id2 :
  valid_datetime (now w1) -> valid_datetime (now w2) ->
  _get_experiment_index (o1, w1) = (Ok n1, (o1, w1)) ->
  _get_experiment_index (o2, w2) = (Ok n2, (o2, w2)) ->
  _default_id_generator (o1, w1) = (Ok id1, (o1, w1)) ->
  _default_id_generator (o2, w2) = (Ok id2, (o2, w2)) ->
  (id1 = id2 <->
   n1 = n2 /\
   year (now w1) = year (now w2) /\ month (now w1) = month (now w2) /\
   day (now w1) = day (now w2) /\ hour (now w1) = hour (now w2) /\
   minute (now w1) = minute (now w2) /\ second (now w1) = second (now w2)).
Proof.
  intros V1 V2 I1 I2 G1 G2.
  apply default_id_generator_form in G1 as (m1 & J1 & -> & _).
  apply default_id_generator_form in G2 as (m2 & J2 & -> & _).
  rewrite I1 in J1. rewrite I2 in J2.
  injection J1 as <-. injection J2 as <-. split.
  - intros E. apply default_form_inj in E as [-> E]. split; [reflexivity|].
    now apply strftime_inj.
  - intros (-> & Ey & Em & Ed & Eh & Ei & Es). unfold strftime.
    now rewrite Ey, Em, Ed, Eh, Ei, Es.
Qed.





Lemma record_info_frame info o w r o' w' :
  record_info info (o, w) = (r, (o', w')) ->
  o' = o /\ same_but_fs w w' /\
  (_experiment_directory o = Unassigned -> w' = w) /\
  (forall d, _experiment_directory o = Assigned d ->
     forall k, k <> resolve w (info_file d) -> fs w' !! k = fs w !! k).
Proof.
  intros H. destruct (record_info_same_but_fs _ _ _ _ _ _ H) as [-> S].
  split; [reflexivity|]. split; [exact S|].
  destruct (_experiment_directory o) as [|d] eqn:Hd.
  - rewrite (record_info_unassigned _ _ _ Hd) in H. injection H as <- <-.
    split; [auto | discriminate].
  - split; [discriminate|].
    rewrite (record_info_run _ _ _ _ Hd) in H.
    destruct (open_append (info_file d) w) as [[f|e] w1] eqn:Eo.
    + destruct (open_append_Ok_file _ _ _ _ Eo) as [-> [c Hc]].
      pose proof (open_append_frame _ _ _ _ Eo) as F.
      unfold file_write in H. rewrite Hc in H. simpl in H.
      injection H as <- <-.
      intros d' [= <-] k Hk. simpl. rewrite lookup_insert_ne by auto.
      now apply F.
    + apply open_append_errors in Eo as [_ ->]. injection H as <- <-.
      auto.
Qed.

(** X5: whatever its outcome, [record_info] leaves the instance as it
    was and changes nothing in the world but the file system; on an
    instance without an experiment directory the world is exactly as
    before; and on an instance with one, no node other than [info.txt]
    in that directory changes. *)
Theorem record_info_touches_only_info_file info o w r o' w' :
  record_info info (o, w) = (r, (o', w')) ->
  o' = o /\ same_but_fs w w' /\
  (_experiment_directory o = Unassigned -> w' = w) /\
  (forall d, _experiment_directory o = Assigned d ->
     forall k, k <> resolve w (info_file d) -> fs w' !! k = fs w !! k).
Proof. apply record_info_frame. Qed.



Lemma well_formed_ancestor f k m :
  well_formed f -> m <> [] -> is_Some (node_at f (k ++ m)%list) ->
  node_at f k = Some Dir.
Proof.
  intros W. induction m as [|x m IH] using rev_ind; [contradiction|].
  intros _ [n Hn]. rewrite app_assoc in Hn.
  apply (well_formed_parent _ _ _ W) in Hn. rewrite removelast_last in Hn.
  destruct m as [|y m'].
  - now rewrite app_nil_r in Hn.
  - apply IH; [discriminate | eauto].
Qed.



(** ** Without commands, nothing is deleted and files only grow *)

Lemma only_grows_refl w : only_grows w w.
Proof.
  intros k. split; [auto|]. intros c H. exists "". now rewrite append_empty_r.
Qed.

Lemma only_grows_trans w1 w2 w3 :
  only_grows w1 w2 -> only_grows w2 w3 -> only_grows w1 w3.
Proof.
  intros G1 G2 k. destruct (G1 k) as [D1 F1], (G2 k) as [D2 F2].
  split; [auto|]. intros c H.
  destruct (F1 c H) as [c1 H1]. destruct (F2 _ H1) as [c2 H2].
  exists (c1 +:+ c2). now rewrite <- append_assoc.
Qed.

Lemma only_grows_eq w w' : fs w' = fs w -> only_grows w w'.
Proof. intros E k. rewrite E. apply only_grows_refl. Qed.

Lemma dirs_added_only_grows t w w' : dirs_added t w w' -> only_grows w w'.
Proof.
  intros D k. split.
  - intros H. eapply dirs_added_keeps; eauto.
  - intros c H. exists "". rewrite append_empty_r.
    eapply dirs_added_keeps; eauto.
Qed.

Lemma open_append_only_grows p w r w' :
  open_append p w = (r, w') -> only_grows w w'.
Proof.
  unfold open_append.
  destruct (node_at (fs w) (removelast (resolve w p))) as [[c|]|];
    [| destruct (node_at (fs w) (resolve w p)) as [[c|]|] eqn:Et
     | destruct (file_above (fs w) (removelast (resolve w p)))];
    intros [= <- <-]; try apply only_grows_refl.
  assert (Hne : resolve w p <> []) by (eapply node_at_None_nonempty; eauto).
  rewrite (node_at_lookup _ _ Hne) in Et.
  intros k. simpl. rewrite lookup_insert.
  destruct (decide (resolve w p = k)) as [<-|]; [|apply only_grows_refl].
  rewrite Et. split; [discriminate|]. intros c. discriminate.
Qed.

Lemma file_write_only_grows f s w r w' :
  file_write f s w = (r, w') -> only_grows w w'.
Proof.
  unfold file_write. destruct (fs w !! f) as [[c|]|] eqn:Ef;
    intros [= <- <-]; try apply only_grows_refl.
  intros k. simpl. rewrite lookup_insert.
  destruct (decide (f = k)) as [<-|]; [|apply only_grows_refl].
  rewrite Ef. split; [discriminate|]. intros c' [= <-]. eauto.
Qed.

Lemma record_info_only_grows info o w r o' w' :
  record_info info (o, w) = (r, (o', w')) -> only_grows w w'.
Proof.
  intros H. destruct (_experiment_directory o) as [|d] eqn:Hd.
  - rewrite (record_info_unassigned _ _ _ Hd) in H. injection H as _ _ <-.
    apply only_grows_refl.
  - rewrite (record_info_run _ _ _ _ Hd) in H.
    destruct (open_append (info_file d) w) as [[f|e] w1] eqn:Eo;
      apply open_append_only_grows in Eo.
    + destruct (file_write f (info +:+ newline) w1) as [r2 w2] eqn:Ew.
      simpl in H. injection H as _ _ <-.
      eapply only_grows_trans; eauto. eapply file_write_only_grows; eauto.
    + now injection H as _ _ <-.
Qed.

(** X13: [record_info], and [initialize_experiment] with the default
    generator and auto-commit disabled (so that no command is run),
    never delete or replace a node, whatever their outcome: a directory
    stays a directory, and a file stays a file whose text starts with
    the text it had. *)
Theorem nothing_is_deleted o w :
  (_id_generator o = DefaultGenerator ->
   _auto_commit_git o = false ->
   forall r o' w',
     initialize_experiment (o, w) = (r, (o', w')) -> only_grows w w') /\
  (forall info r o' w',
     record_info info (o, w) = (r, (o', w')) -> only_grows w w').
Proof.
  split; [|intros info r o' w'; apply record_info_only_grows].
  intros Hg Ha r o' w'. rewrite initialize_experiment_run, Hg, Ha.
  cbn [generate].
  set (w0 := log_info (_log o) (opening_message o) w).
  assert (G0 : only_grows w w0) by now apply only_grows_eq.
  destruct (default_id (_group_dir o) w0) as [id|e]; cbv zeta;
    [|now intros [= _ _ <-]].
  destruct (Path_mkdir _ true true w0) as [[[]|e] w2] eqn:Em;
    apply Path_mkdir_parents_run in Em as [D _];
    apply dirs_added_only_grows in D;
    pose proof (only_grows_trans _ _ _ G0 D) as G2;
    now intros [= _ _ <-].
Qed.

(** ** A successful snapshot, end to end *)

Lemma exits_log_info l m w done args st out :
  exits w done args st out -> exits (log_info l m w) done args st out.
Proof. exact (fun H => H). Qed.

(** X14: with auto-commit enabled and a well-formed file system, take a
    call in which the directories get made (the same call with
    auto-commit disabled returns normally, leaving [w1]), in which the
    stage, commit and identifier-read commands exit with status 0,
    whatever the status of the probe, and with no directory in the place
    of [info.txt].  Then [initialize_experiment] returns normally, the
    four commands have run in order, [info.txt] in the experiment
    directory holds what it held followed by the line
    [commit_hash: <trimmed output of rev-parse>], and the log has the
    announcement and no [ERROR] record. *)
Theorem successful_snapshot_is_recorded
    o w o1 w1 d out1 st2 out2 out3 out :
  _auto_commit_git o = true ->
  well_formed (fs w1) ->
  initialize_experiment (set_auto_commit_git false o, w) = (Ok tt, (o1, w1)) ->
  _experiment_directory o1 = Assigned d ->
  exits w1 [] stage_args 0 out1 ->
  exits w1 [stage_args] probe_args st2 out2 ->
  exits w1 [stage_args; probe_args] (commit_args (commit_message o)) 0 out3 ->
  exits w1 [stage_args; probe_args; commit_args (commit_message o)]
    read_head_args 0 out ->
  node_at (fs w1) (resolve w1 (info_file d)) <> Some Dir ->
  exists w2,
    initialize_experiment (o, w) =
      (Ok tt, (set_auto_commit_git true o1, w2)) /\
    proc_trace w2 =
      (proc_trace w1 ++
       map (git_command w1) (sequence_commands (commit_message o)))%list /\
    read_text w2 (info_file d) =
      Some (default "" (read_text w1 (info_file d))
            +:+ ("commit_hash: " +:+ strip out) +:+ newline) /\
    log_records w2 =
      (log_records w1 ++ [announcement o])%list.
Proof.
  intros Ha W1 Hi Hd H1 H2 H3 H4 Hnd.
  apply initialize_without_commit in Hi as (id & w0 & Hg & Hm & ->);
    [|reflexivity|reflexivity].
  cbn [set_auto_commit_git _id_generator _group_dir _log] in Hg, Hm.
  change (opening_message (set_auto_commit_git false o))
    with (opening_message o) in Hg.
  injection Hd as <-.
  rewrite initialize_experiment_run, Hg. cbv zeta. rewrite Hm, Ha.
  set (o2 := with_directories id o).
  set (w1' := log_info (_log o) "auto-creating experiment commit..." w1).
  assert (Hdir : node_at (fs w1) (resolve w1 (_group_dir o // id)) = Some Dir).
  { apply Path_mkdir_parents_run in Hm as [[S _] I]. specialize (I eq_refl).
    apply (well_formed_ancestor _ _ [LOGS_NAME] W1); [discriminate|].
    rewrite <- (resolve_truediv_plain _ _ _ plain_logs).
    unfold is_dir in I.
    destruct (node_at (fs w1) (resolve w1 (_group_dir o // id // LOGS_NAME)));
      [eauto | discriminate]. }
  destruct (record_info_appends ("commit_hash: " +:+ strip out) o2
              (_group_dir o // id)
              (after_commands w1' (sequence_commands (commit_message o)))
              eq_refl Hdir Hnd) as (w2 & E & T & S & _).
  exists w2. unfold _do_auto_commit, try_except.
  rewrite (snapshot_sequence_success (commit_message o) o2 w1' _ _ _ _ _
             (exits_log_info _ _ _ _ _ _ _ H1)
             (exits_log_info _ _ _ _ _ _ _ H2)
             (exits_log_info _ _ _ _ _ _ _ H3)
             (exits_log_info _ _ _ _ _ _ _ H4)).
  rewrite E. split.
  - f_equal. f_equal. unfold o2. destruct o. simpl in *. now subst.
  - split; [now rewrite (same_but_fs_trace _ _ S)|].
    split; [exact T|]. now rewrite (same_but_fs_logs _ _ S).
Qed.

(** ** The further properties at sample inputs *)

Lemma valid_noon : valid_datetime noon.
Proof. unfold valid_datetime. cbn. lia. Qed.

(** X1 with [None] as logger, in the busy world. *)
Lemma construction_without_a_logger :
  fs (set_root_level DEBUG busy_world) = fs busy_world /\
  root_level (set_root_level DEBUG busy_world) = DEBUG.
Proof.
  destruct (construction_effects "runs" "baseline" "mnist" false "checkpoints"
              LoggingNone None busy_world _ _
              (Experiment_init_without_logger "runs" "baseline" "mnist" false
                 "checkpoints" None busy_world))
    as (F & _ & _ & _ & _ & L & _).
  split; [exact F | exact L].
Defined.

(** X2 in a repository with nothing to commit: the failure of
    [git commit] does not leave [initialize_experiment]. *)
Lemma failed_commit_does_not_leave_initialize :
  fst (initialize_experiment
         (sample true "checkpoints", bare_world git_clean))
  <> Err (CalledProcessError 1
            (commit_args (commit_message (sample true "checkpoints")))).
Proof.
  apply (proj2 (CalledProcessError_never_leaves
                  (sample true "checkpoints") (bare_world git_clean))
           eq_refl).
Defined.

(** X3 where [/work/runs/mnist] is a file. *)
Lemma initialize_with_a_file_as_group :
  exists w',
    initialize_experiment (sample false "checkpoints", group_file_world)
      = (Err (OSError NotADirectoryError),
         (sample false "checkpoints", w')) /\
    fs w' = fs group_file_world.
Proof.
  destruct (group_path_is_a_file
              (sample false "checkpoints") group_file_world "" eq_refl)
    as (w' & E & F & _).
  - vm_compute; reflexivity.
  - exists w'. split; [exact E | exact F].
Defined.

(** X4 without auto-commit in the bare world. *)
Lemma initialize_without_commit_runs_nothing :
  exists n,
    proc_trace (snd (initialized false git_dirty)) =
      (proc_trace (bare_world git_dirty) ++
       map (git_command (bare_world git_dirty))
         (firstn n (sequence_commands
                      (commit_message (sample false "checkpoints")))))%list /\
    n = 0.
Proof.
  destruct (initialize_runs_only_the_snapshot_commands
              (sample false "checkpoints") (bare_world git_dirty)
              (Ok tt) (fst (initialized false git_dirty))
              (snd (initialized false git_dirty)) eq_refl)
    as (n & T & Z).
  - apply run_initialize_Ok. vm_compute; reflexivity.
  - exists n. split; [exact T | exact (Z eq_refl)].
Defined.

(** X5 on a freshly initialized instance, and on one straight from the
    constructor. *)
Lemma record_info_leaves_the_logs_directory :
  fs (snd (snd (record_info "x"
                  (fst (initialized false git_dirty),
                   snd (initialized false git_dirty)))))
    !! resolve (snd (initialized false git_dirty)) (first_directory // LOGS_NAME)
  = fs (snd (initialized false git_dirty))
    !! resolve (snd (initialized false git_dirty)) (first_directory // LOGS_NAME)
  /\
  snd (snd (record_info "x" (sample false "checkpoints", busy_world)))
  = busy_world.
Proof.
  split.
  - destruct (record_info_touches_only_info_file "x"
                (fst (initialized false git_dirty))
                (snd (initialized false git_dirty)) _ _ _ (state_eta _))
      as (_ & _ & _ & F).
    apply (F first_directory).
    + vm_compute; reflexivity.
    + vm_compute. discriminate.
  - destruct (record_info_touches_only_info_file "x"
                (sample false "checkpoints") busy_world _ _ _ (state_eta _))
      as (_ & _ & U & _).
    apply U. reflexivity.
Defined.

(** X6 at a repository with nothing to commit. *)
Lemma log_of_a_failed_snapshot :
  exists rest,
    log_records (snd (run_initialize (sample true "checkpoints")
                        (bare_world git_clean))) =
      (log_records (bare_world git_clean) ++
       mkLogRecord (_log (sample true "checkpoints")) INFO
         (opening_message (sample true "checkpoints")) None :: rest)%list.
Proof.
  destruct (initialize_log_records
              (sample true "checkpoints") (bare_world git_clean) _ _ _
              eq_refl (state_eta _))
    as (rest & L & _).
  exists rest. exact L.
Defined.

(** X7 where [info.txt] is a directory. *)
Lemma commit_made_but_hash_not_recorded :
  fst (_do_auto_commit "snapshot" false
         (with_directories "run" (sample true "checkpoints"),
          info_directory_world))
  = Err (OSError IsADirectoryError).
Proof.
  destruct (write_failure_after_commit "snapshot" false
              (with_directories "run" (sample true "checkpoints"))
              info_directory_world "" 1%Z "" "" (head_hash +:+ newline)
              (_group_dir (sample true "checkpoints") // "run")
              (OSError IsADirectoryError)
              (snd (open_append
                      (info_file
                         (_group_dir (sample true "checkpoints") // "run"))
                      (after_commands info_directory_world
                         (sequence_commands "snapshot")))))
    as [E _].
  - vm_compute; reflexivity.
  - vm_compute; reflexivity.
  - vm_compute; reflexivity.
  - vm_compute; reflexivity.
  - reflexivity.
  - apply pair_with_fst. vm_compute; reflexivity.
  - rewrite E. reflexivity.
Defined.

(** X8 in the bare world. *)
Lemma bare_world_stays_well_formed :
  well_formed (fs (snd (run_initialize (sample false "checkpoints")
                          (bare_world git_dirty)))).
Proof.
  destruct (well_formedness_is_kept
              (sample false "checkpoints") (bare_world git_dirty))
    as [H _].
  - apply well_formedb_sound. vm_compute; reflexivity.
  - apply (H eq_refl _ _ _ (state_eta _)).
Defined.

(** X9 where the name the generator chooses is taken by a file. *)
Lemma initialize_onto_a_file :
  exists e,
    fst (initialize_experiment
           (sample false "checkpoints", obstructed_world))
    = Err (OSError e).
Proof.
  destruct (file_in_the_way (sample false "checkpoints") obstructed_world
              "1_2024-03-09_12-00-00"
              ["work"; "runs"; "mnist"; "1_2024-03-09_12-00-00"] "" eq_refl)
    as (e & o' & w' & E & _).
  - apply well_formedb_sound. vm_compute; reflexivity.
  - rewrite default_id_generator_run. f_equal; vm_compute; reflexivity.
  - vm_compute; reflexivity.
  - now exists ["runs"; "mnist"; "1_2024-03-09_12-00-00"].
  - now exists ["logs"].
  - exists e. rewrite E. reflexivity.
Defined.

(** X10 in the bare world at noon. *)
Lemma first_identifier_is_a_name : plain_name "0_2024-03-09_12-00-00".
Proof.
  apply (default_identifier_is_a_name
           (sample false "checkpoints") (bare_world git_dirty)
           "0_2024-03-09_12-00-00"
           (sample false "checkpoints", bare_world git_dirty) valid_noon).
  rewrite default_id_generator_run. f_equal; vm_compute; reflexivity.
Defined.

(** X11 for the bare and the busy world at noon. *)
Lemma identifiers_of_two_groups :
  "0_2024-03-09_12-00-00" = "3_2024-03-09_12-00-00" <->
  0 = 3 /\
  year noon = year noon /\ month noon = month noon /\ day noon = day noon /\
  hour noon = hour noon /\ minute noon = minute noon /\
  second noon = second noon.
Proof.
  apply (default_identifier_determines
           (sample false "checkpoints") (bare_world git_dirty)
           (sample false "checkpoints") busy_world
           0 3 "0_2024-03-09_12-00-00" "3_2024-03-09_12-00-00"
           valid_noon valid_noon).
  - rewrite get_experiment_index_run. f_equal; vm_compute; reflexivity.
  - rewrite get_experiment_index_run. f_equal; vm_compute; reflexivity.
  - rewrite default_id_generator_run. f_equal; vm_compute; reflexivity.
  - rewrite default_id_generator_run. f_equal; vm_compute; reflexivity.
Defined.


(** X13 in the bare world, with auto-commit disabled: the working
    directory is still there after initialization. *)
Lemma working_directory_survives :
  fs (snd (run_initialize (sample false "checkpoints")
             (bare_world git_dirty))) !! ["work"] = Some Dir.
Proof.
  destruct (nothing_is_deleted (sample false "checkpoints")
              (bare_world git_dirty)) as [H _].
  apply (H eq_refl eq_refl _ _ _ (state_eta _) ["work"]).
  vm_compute; reflexivity.
Defined.

(** X14 at a repository with a pending change. *)
Lemma commit_hash_after_initialize :
  exists w2,
    initialize_experiment (sample true "checkpoints", bare_world git_dirty)
      = (Ok tt, (set_auto_commit_git true (fst (initialized false git_dirty)),
                 w2)) /\
    read_text w2 (info_file first_directory)
      = Some ("commit_hash: " +:+ head_hash +:+ newline).
Proof.
  destruct (successful_snapshot_is_recorded
              (sample true "checkpoints") (bare_world git_dirty)
              (fst (initialized false git_dirty))
              (snd (initialized false git_dirty)) first_directory
              "" 1%Z "" "" (head_hash +:+ newline))
    as (w2 & E & _ & T & _).
  - reflexivity.
  - apply well_formedb_sound. vm_compute; reflexivity.
  - apply (run_initialize_Ok (sample false "checkpoints")).
    vm_compute; reflexivity.
  - vm_compute; reflexivity.
  - vm_compute; reflexivity.
  - vm_compute; reflexivity.
  - vm_compute; reflexivity.
  - vm_compute; reflexivity.
  - vm_compute. discriminate.
  - exists w2. split; [exact E|].
    etransitivity; [exact T|]. vm_compute. reflexivity.
Defined.
